(** * Metricologist: the metric collector and its CloudWatch driver

    A shallow embedding of [lib/MetricCollector.js] and
    [lib/CloudWatchDriver.js], and the properties of the two classes.

    JavaScript objects are association lists in property enumeration
    order, exceptions are completions, and a promise is the work it
    still has to do on the outside world (transport calls, log lines). *)

From Stdlib Require Import String List ZArith Lia Bool Arith.
From Equations Require Import Equations.
Import ListNotations.

Open Scope string_scope.
Open Scope list_scope.

(** ** The JavaScript fragment the two classes use *)

Module JS.

Inductive exn : Type :=
| AssertionError (message : string)
| TypeError (message : string).

(** How a synchronous call ends: with a value, or with [throw]. *)
Inductive completion (A : Type) : Type :=
| Normal (a : A)
| Throw (e : exn).
Arguments Normal {A} a.
Arguments Throw {A} e.

(** [assert(value, message)] with the truthiness of [value] decided. *)
Definition assert (truthy : bool) (message : string) : completion unit :=
  if truthy then Normal tt else Throw (AssertionError message).

(** An argument that is one object or an array of them. *)
Inductive one_or_many (A : Type) : Type :=
| One (a : A)
| Many (l : list A).
Arguments One {A} a.
Arguments Many {A} l.

(** [[].concat(x)]: an array is spread, anything else is wrapped. *)
Definition concat {A} (x : one_or_many A) : list A :=
  match x with
  | One a => [a]
  | Many l => l
  end.

(** An argument that may be left out ([undefined]).  Objects and arrays
    are truthy, the empty array too. *)
Definition truthy {A} (x : option (one_or_many A)) : bool :=
  match x with
  | None => false
  | Some _ => true
  end.

(** Truthiness of an optional string: [undefined] and [''] are falsy. *)
Definition truthy_string (s : option string) : bool :=
  match s with
  | None => false
  | Some s => negb (String.eqb s "")
  end.

(** A plain object with string keys: its own properties, in the order
    [Object.keys] lists them. *)
Definition object (A : Type) : Type := list (string * A).

Definition Object_keys {A} (o : object A) : list string := map fst o.

(** [o[k]]: [None] stands for [undefined]. *)
Fixpoint get {A} (o : object A) (k : string) : option A :=
  match o with
  | [] => None
  | (k', v) :: o' => if String.eqb k' k then Some v else get o' k
  end.

(** [Array.prototype.join]: [undefined] elements print as nothing. *)
Definition to_joined (x : option string) : string :=
  match x with
  | None => ""
  | Some s => s
  end.

Fixpoint join (sep : string) (l : list (option string)) : string :=
  match l with
  | [] => ""
  | [x] => to_joined x
  | x :: (_ :: _) as rest => (to_joined x ++ sep ++ join sep rest)%string
  end.

(** [Array.prototype.reduce] without an initial value. *)
Definition reduce {A} (f : A -> A -> A) (l : list A) : completion A :=
  match l with
  | [] => Throw (TypeError "Reduce of empty array with no initial value")
  | x :: xs => Normal (fold_left f xs x)
  end.

(** [Array.prototype.map] with a callback that may throw: the first
    exception ends the traversal. *)
Fixpoint map_throw {A B} (f : A -> completion B) (l : list A)
  : completion (list B) :=
  match l with
  | [] => Normal []
  | x :: l' =>
      match f x with
      | Throw e => Throw e
      | Normal y =>
          match map_throw f l' with
          | Throw e => Throw e
          | Normal ys => Normal (y :: ys)
          end
      end
  end.

(** [Array.prototype.forEach] with a callback that changes a state and
    may throw: what was done before the exception stays done. *)
Fixpoint forEach {A S} (f : A -> S -> S * completion unit) (l : list A) (s : S)
  : S * completion unit :=
  match l with
  | [] => (s, Normal tt)
  | x :: l' =>
      match f x s with
      | (s', Normal _) => forEach f l' s'
      | (s', Throw e) => (s', Throw e)
      end
  end.

(** A [Map] with string keys: entries in insertion order, no key twice. *)
Definition Map (A : Type) : Type := list (string * A).

Fixpoint Map_get {A} (k : string) (m : Map A) : option A :=
  match m with
  | [] => None
  | (k', v) :: m' => if String.eqb k' k then Some v else Map_get k m'
  end.

(** [Map.prototype.set]: an existing key keeps its place, a new key goes
    to the end. *)
Fixpoint Map_set {A} (k : string) (v : A) (m : Map A) : Map A :=
  match m with
  | [] => [(k, v)]
  | (k', v') :: m' =>
      if String.eqb k' k then (k', v) :: m' else (k', v') :: Map_set k v m'
  end.

Definition Map_values {A} (m : Map A) : list A := map snd m.

Definition Map_keys {A} (m : Map A) : list string := map fst m.

Definition Map_clear {A} (m : Map A) : Map A := [].

End JS.

(** The arithmetic of the sampled values: [Math.max(a, b)], [Math.min(a, b)]
    and [a + b] on the values the callers record. *)
Class JsArith (V : Type) : Type := {
  Math_max : V -> V -> V;
  Math_min : V -> V -> V;
  js_add : V -> V -> V
}.

#[global] Instance JsArith_Z : JsArith Z := {
  Math_max := Z.max;
  Math_min := Z.min;
  js_add := Z.add
}.

(** ** Data model *)

(** What [Array.isArray(rawMetric.value)] tells apart. *)
Inductive metric_value (V : Type) : Type :=
| Scalar (v : V)
| Samples (vs : list V).
Arguments Scalar {V} v.
Arguments Samples {V} vs.

(** A timestamp as callers give it: a [Date] object, or a number of
    milliseconds. *)
Inductive js_time : Type :=
| DateObject (time : Z)
| Number (time : Z).

(** Truthiness of an optional timestamp: [undefined] and the number 0 are
    falsy, a [Date] object never is. *)
Definition truthy_time (t : option js_time) : bool :=
  match t with
  | None => false
  | Some (DateObject _) => true
  | Some (Number time) => negb (Z.eqb time 0)
  end.

(** A metric object: an observation given to [addMetrics] carries one
    value, a record kept by the collector an array of them, and
    [sendMetrics] takes either. *)
Record metric (Val : Type) : Type := mkMetric {
  m_name : string;
  m_dimensions : option (JS.object string);
  m_value : Val;
  m_unit : option string;
  m_units : option string;
  m_timestamp : option js_time
}.
Arguments mkMetric {Val}.
Arguments m_name {Val}.
Arguments m_dimensions {Val}.
Arguments m_value {Val}.
Arguments m_unit {Val}.
Arguments m_units {Val}.
Arguments m_timestamp {Val}.

(** [Object.assign({}, m, { value: v })]. *)
Definition assign_value {A B} (m : metric A) (v : B) : metric B :=
  mkMetric (m_name m) (m_dimensions m) v (m_unit m) (m_units m) (m_timestamp m).

Module Dimension.
Record t : Type := mk { Name : string; Value : option string }.
End Dimension.

Module StatisticSet.
Record t (V : Type) : Type := mk {
  Maximum : V;
  Minimum : V;
  SampleCount : nat;
  Sum : V
}.
Arguments mk {V}.
Arguments Maximum {V}.
Arguments Minimum {V}.
Arguments SampleCount {V}.
Arguments Sum {V}.
End StatisticSet.

(** One element of [MetricData]; a field that was not assigned is [None]. *)
Module MetricDatum.
Record t (V : Type) : Type := mk {
  MetricName : string;
  Dimensions : list Dimension.t;
  Timestamp : option js_time;
  StatisticValues : option (StatisticSet.t V);
  Value : option V;
  Unit : option string
}.
Arguments mk {V}.
Arguments MetricName {V}.
Arguments Dimensions {V}.
Arguments Timestamp {V}.
Arguments StatisticValues {V}.
Arguments Value {V}.
Arguments Unit {V}.
End MetricDatum.

(** The argument of [putMetricData]. *)
Record batch (V : Type) : Type := mkBatch {
  Namespace : string;
  MetricData : list (MetricDatum.t V)
}.
Arguments mkBatch {V}.
Arguments Namespace {V}.
Arguments MetricData {V}.


(** ** The outside world: timers, the transport, the logger *)

(** The error a failed [putMetricData] rejects with; [_logged] is the mark
    the driver leaves on it. *)
Record error : Type := mkError {
  err_message : string;
  _logged : bool
}.

(** [err._logged = true] *)
Definition set_logged (err : error) : error :=
  mkError (err_message err) true.

(** Why a promise is rejected: an exception thrown inside a callback, or
    the error of the transport. *)
Inductive reason : Type :=
| Thrown (e : JS.exn)
| Failed (err : error).

Inductive outcome : Type :=
| Resolved
| Rejected (r : reason).

(** A pending [setTimeout(this.flush.bind(this), delay)]. *)
Record timer : Type := mkTimer {
  timer_id : nat;
  timer_delay : Z
}.

Section World.
Context {V : Type}.

Inductive log_entry : Type :=
| LogDebug (metrics : batch V) (msg : string)
| LogError (err : error) (metrics : batch V) (msg : string).

(** What the program does to its surroundings: the timers that are armed,
    the batches given to [putMetricData] (oldest first) and the lines
    written to the logger (oldest first). *)
Record world : Type := mkWorld {
  timers : list timer;
  next_timer : nat;
  puts : list (batch V);
  logs : list log_entry
}.

(** [client.putMetricData(metrics).promise()]: from the calls made so far
    and the batch, [None] when it fulfils and [Some err] when it rejects. *)
Definition transport : Type := list (batch V) -> batch V -> option error.

Definition setTimeout (delay : Z) (w : world) : nat * world :=
  (next_timer w,
   mkWorld (timers w ++ [mkTimer (next_timer w) delay]) (S (next_timer w))
           (puts w) (logs w)).

(** [clearTimeout(handle)]; nothing happens for [undefined]. *)
Definition clearTimeout (handle : option nat) (w : world) : world :=
  match handle with
  | None => w
  | Some h =>
      mkWorld (filter (fun t => negb (Nat.eqb (timer_id t) h)) (timers w))
              (next_timer w) (puts w) (logs w)
  end.

Definition put (metrics : batch V) (w : world) : world :=
  mkWorld (timers w) (next_timer w) (puts w ++ [metrics]) (logs w).

Definition log (entry : log_entry) (w : world) : world :=
  mkWorld (timers w) (next_timer w) (puts w) (logs w ++ [entry]).

(** A promise, as the work that settles it. *)
Definition promise : Type := world -> world * outcome.

Definition BPromise_resolve : promise := fun w => (w, Resolved).

(** Runs the mapper on the queued items one after the other; a rejection
    ends the run and leaves the rest of the queue untouched. *)
Fixpoint run_queue {A} (mapper : A -> promise) (queue : list A) : promise :=
  fun w =>
    match queue with
    | [] => (w, Resolved)
    | x :: queue' =>
        match mapper x w with
        | (w', Resolved) => run_queue mapper queue' w'
        | (w', Rejected r) => (w', Rejected r)
        end
    end.

(** The order in which Bluebird's [Promise.map] with [{ concurrency: 1 }]
    hands the items to the mapper, for a mapper whose promise is pending
    when it returns.  The library goes through the indexes in order
    ([_promiseFulfilled(value, index)]): with nothing in flight it calls the
    mapper, which is so for the first item only; for the others it does
    [this._queue.push(index)].  Each time the promise in flight fulfils,
    [_drainQueue] takes [index = queue.pop()], from the back, and calls the
    mapper there.  (The documentation of [Promise.map] leaves the order
    open and names [Promise.mapSeries] for the ordered variant.) *)
Definition map_order {A} (items : list A) : list A :=
  match items with
  | [] => []
  | first :: others => first :: rev others
  end.

(** [BPromise.map(items, mapper, { concurrency: 1 })], the fulfilment
    value left out. *)
Definition BPromise_map {A} (items : list A) (mapper : A -> promise) : promise :=
  run_queue mapper (map_order items).

End World.

Arguments world V : clear implicits.
Arguments log_entry V : clear implicits.
Arguments transport V : clear implicits.
Arguments promise V : clear implicits.

(** ** The [chunk] package *)

(** Consecutive pieces of [S n] elements, the last one shorter when the
    length is not a multiple. *)
Equations? pieces {A} (n : nat) (arr : list A) : list (list A)
  by wf (length arr) lt :=
  pieces n [] := [];
  pieces n (x :: xs) := (x :: firstn n xs) :: pieces n (skipn n xs).
Proof. rewrite length_skipn. lia. Qed.

(** [chunk(arr, size)]; the package reads a size of 0 as its default, 2. *)
Definition chunk {A} (arr : list A) (size : nat) : list (list A) :=
  match size with
  | 0 => pieces 1 arr
  | S n => pieces n arr
  end.

(** The logger, as far as the driver looks at it: [logger.error] is
    there, [logger.debug] may be. *)
Record Logger : Type := mkLogger {
  has_debug : bool
}.

Definition console : Logger := mkLogger true.

(** What a constructor is given. *)
Module Options.
Record t (V : Type) : Type := mk {
  serviceNamespace : option string;
  auto : option bool;
  flushFrequency : option Z;
  client : option (transport V);
  logger : option Logger
}.
Arguments mk {V}.
Arguments serviceNamespace {V}.
Arguments auto {V}.
Arguments flushFrequency {V}.
Arguments client {V}.
Arguments logger {V}.
End Options.

(** ** [lib/CloudWatchDriver.js] *)

Module CloudWatchDriver.
Section Driver.
Context {V : Type} `{JsArith V}.

(** [new AWS.CloudWatch({ apiVersion: '2010-08-01' })], the client a driver
    makes for itself when it is given none. *)
Variable AWS_CloudWatch : transport V.

Definition METRIC_COUNT_LIMIT : nat := 20.

Record t : Type := mk {
  serviceNamespace : string;
  client : transport V;
  logger : Logger
}.

Definition new (options : Options.t V) : JS.completion t :=
  match JS.assert (JS.truthy_string (Options.serviceNamespace options))
                  "serviceNamespace is required" with
  | JS.Throw e => JS.Throw e
  | JS.Normal _ =>
      JS.Normal
        (mk (match Options.serviceNamespace options with
             | Some namespace => namespace
             | None => "" (* not reached: the assertion has passed *)
             end)
            (match Options.client options with
             | Some c => c
             | None => AWS_CloudWatch
             end)
            (match Options.logger options with
             | Some l => l
             | None => console
             end))
  end.

(** [StatisticValues] of an array of samples; each [reduce] throws on an
    empty array. *)
Definition statisticValues (value : list V)
  : JS.completion (StatisticSet.t V) :=
  match JS.reduce Math_max value with
  | JS.Throw e => JS.Throw e
  | JS.Normal maximum =>
      match JS.reduce Math_min value with
      | JS.Throw e => JS.Throw e
      | JS.Normal minimum =>
          match JS.reduce js_add value with
          | JS.Throw e => JS.Throw e
          | JS.Normal sum =>
              JS.Normal (StatisticSet.mk maximum minimum (length value) sum)
          end
      end
  end.

(** The callback of [metricsBatch.map]: one raw metric to one element of
    [MetricData].  The keys come from [rawMetric.dimensions || {}]; the
    values are read from [rawMetric.dimensions], which is that same object
    whenever there is a key to read. *)
Definition wireEntry (rawMetric : metric (metric_value V))
  : JS.completion (MetricDatum.t V) :=
  let dimensions :=
    match m_dimensions rawMetric with
    | Some d => d
    | None => []
    end in
  let Dimensions :=
    map (fun Name => Dimension.mk Name (JS.get dimensions Name))
        (JS.Object_keys dimensions) in
  let Timestamp :=
    if truthy_time (m_timestamp rawMetric) then m_timestamp rawMetric else None in
  let Unit :=
    if JS.truthy_string (m_unit rawMetric) then m_unit rawMetric else None in
  match m_value rawMetric with
  | Samples value =>
      match statisticValues value with
      | JS.Throw e => JS.Throw e
      | JS.Normal stats =>
          JS.Normal (MetricDatum.mk (m_name rawMetric) Dimensions Timestamp
                                    (Some stats) None Unit)
      end
  | Scalar value =>
      JS.Normal (MetricDatum.mk (m_name rawMetric) Dimensions Timestamp
                                None (Some value) Unit)
  end.

(** The mapper given to [BPromise.map]: encode the batch, log it at debug
    level when the logger can, hand it to the transport; a failure is
    logged, marked and thrown again.  An exception of the encoding rejects
    the promise before the transport is reached. *)
Definition sendBatch (this : t) (metricsBatch : list (metric (metric_value V)))
  : promise V :=
  fun w =>
    match JS.map_throw wireEntry metricsBatch with
    | JS.Throw e => (w, Rejected (Thrown e))
    | JS.Normal metricsData =>
        let metrics := mkBatch (serviceNamespace this) metricsData in
        let w1 :=
          if has_debug (logger this)
          then log (LogDebug metrics "sending metrics") w
          else w in
        match client this (puts w1) metrics with
        | None => (put metrics w1, Resolved)
        | Some err =>
            (log (LogError err metrics "failed to send metrics") (put metrics w1),
             Rejected (Failed (set_logged err)))
        end
    end.

Definition sendMetrics (this : t)
  (rawMetrics : JS.one_or_many (metric (metric_value V))) : promise V :=
  BPromise_map (chunk (JS.concat rawMetrics) METRIC_COUNT_LIMIT) (sendBatch this).

End Driver.
End CloudWatchDriver.

(** ** [lib/MetricCollector.js] *)

Module MetricCollector.
Section Collector.
Context {V : Type} `{JsArith V}.
Variable AWS_CloudWatch : transport V.

Definition DEFAULT_FLUSH_FREQUENCY : Z := 20000.

Record t : Type := mk {
  cloudwatchDriver : CloudWatchDriver.t (V := V);
  auto : bool;
  flushFrequency : Z;
  _metrics : JS.Map (metric (list V));
  _stopped : bool;
  _flushTimer : option nat
}.

Definition with_metrics (this : t) (m : JS.Map (metric (list V))) : t :=
  mk (cloudwatchDriver this) (auto this) (flushFrequency this) m
     (_stopped this) (_flushTimer this).

Definition with_stopped (this : t) (b : bool) : t :=
  mk (cloudwatchDriver this) (auto this) (flushFrequency this) (_metrics this)
     b (_flushTimer this).

Definition with_flushTimer (this : t) (h : option nat) : t :=
  mk (cloudwatchDriver this) (auto this) (flushFrequency this) (_metrics this)
     (_stopped this) h.

Definition _setupFlushTimer (this : t) (w : world V) : t * world V :=
  let w1 := clearTimeout (_flushTimer this) w in
  let (handle, w2) := setTimeout (flushFrequency this) w1 in
  (with_flushTimer this (Some handle), w2).

Definition new (options : Options.t V) (w : world V)
  : JS.completion (t * world V) :=
  match JS.assert (JS.truthy_string (Options.serviceNamespace options))
                  "missing options.serviceNamespace" with
  | JS.Throw e => JS.Throw e
  | JS.Normal _ =>
      match CloudWatchDriver.new AWS_CloudWatch
              (Options.mk (Options.serviceNamespace options) None None
                          (Options.client options) (Options.logger options)) with
      | JS.Throw e => JS.Throw e
      | JS.Normal driver =>
          let auto :=
            match Options.auto options with
            | Some b => b
            | None => false
            end in
          let flushFrequency :=
            match Options.flushFrequency options with
            | Some 0%Z | None => DEFAULT_FLUSH_FREQUENCY
            | Some f => f
            end in
          let this := mk driver auto flushFrequency [] (negb auto) None in
          if auto then JS.Normal (_setupFlushTimer this w)
          else JS.Normal (this, w)
      end
  end.

(** [Object.keys(undefined)] is a [TypeError]. *)
Definition _getMetricKey {Val} (metricData : metric Val) : JS.completion string :=
  match m_dimensions metricData with
  | None => JS.Throw (JS.TypeError "Cannot convert undefined or null to object")
  | Some dimensions =>
      let metricDimensionsNamespace :=
        JS.join ":" (map (fun d => JS.get dimensions d)
                         (JS.Object_keys dimensions)) in
      JS.Normal (m_name metricData ++ ":" ++ metricDimensionsNamespace)%string
  end.

(** [metric.value.push(v)]: the record stored in the map changes where it
    stands. *)
Definition push (stored : metric (list V)) (v : V) : metric (list V) :=
  assign_value stored (m_value stored ++ [v]).

(** The callback of [metricsData.forEach]. *)
Definition addMetric (metricData : metric V) (this : t)
  : t * JS.completion unit :=
  match _getMetricKey metricData with
  | JS.Throw e => (this, JS.Throw e)
  | JS.Normal key =>
      match JS.Map_get key (_metrics this) with
      | Some metric =>
          (with_metrics this
             (JS.Map_set key (push metric (m_value metricData)) (_metrics this)),
           JS.Normal tt)
      | None =>
          (with_metrics this
             (JS.Map_set key (assign_value metricData [m_value metricData])
                         (_metrics this)),
           JS.Normal tt)
      end
  end.

(** Returns the collector ([this]) next to how the call ended. *)
Definition addMetrics (this : t)
  (metricsData : option (JS.one_or_many (metric V))) : t * JS.completion unit :=
  match JS.assert (JS.truthy metricsData) "missing metricsData" with
  | JS.Throw e => (this, JS.Throw e)
  | JS.Normal _ =>
      match metricsData with
      | Some given => JS.forEach addMetric (JS.concat given) this
      | None => (this, JS.Normal tt) (* not reached: the assertion has passed *)
      end
  end.

Definition getMetrics (this : t) : list (metric (list V)) :=
  JS.Map_values (_metrics this).

Definition clearMetrics (this : t) : t :=
  with_metrics this (JS.Map_clear (_metrics this)).

(** A record of the collector as the driver reads it: its value is an
    array. *)
Definition rawMetric (record : metric (list V)) : metric (metric_value V) :=
  assign_value record (Samples (m_value record)).

(** The collector and the world when [flush()] returns, and the promise it
    returns. *)
Definition flush (this : t) (w : world V) : t * world V * promise V :=
  let metricsData := getMetrics this in
  let this1 := clearMetrics this in
  let (this2, w2) :=
    if auto this1 && negb (_stopped this1)
    then _setupFlushTimer this1 w
    else (this1, w) in
  if Nat.eqb (length metricsData) 0
  then (this2, w2, BPromise_resolve)
  else (this2, w2,
        CloudWatchDriver.sendMetrics (cloudwatchDriver this2)
                                     (JS.Many (map rawMetric metricsData))).

Definition stop (this : t) (w : world V) : t * world V * promise V :=
  if _stopped this
  then (this, w, BPromise_resolve)
  else
    let this1 := with_stopped this true in
    let w1 := clearTimeout (_flushTimer this1) w in
    flush this1 w1.

End Collector.
End MetricCollector.

(** ** Notions the statements use *)

Section Notions.
Context {V : Type}.

(** The transport fulfils each of [calls], made in turn after [history]. *)
Fixpoint fulfils (client : transport V) (history calls : list (batch V)) : bool :=
  match calls with
  | [] => true
  | metrics :: calls' =>
      match client history metrics with
      | None => fulfils client (history ++ [metrics]) calls'
      | Some _ => false
      end
  end.

(** The debug lines a logger writes for the batches it is shown. *)
Definition debug_lines (l : Logger) (sent : list (batch V)) : list (log_entry V) :=
  if has_debug l
  then map (fun metrics => LogDebug metrics "sending metrics") sent
  else [].

(** The world once [sent] went to the transport, each batch announced to
    the logger first. *)
Definition after_sending (l : Logger) (sent : list (batch V)) (w : world V)
  : world V :=
  mkWorld (timers w) (next_timer w) (puts w ++ sent) (logs w ++ debug_lines l sent).

(** [{ Namespace: this.serviceNamespace, MetricData: metricsData }] *)
Definition batch_of `{JsArith V} (this : CloudWatchDriver.t (V := V))
  (metricsData : list (MetricDatum.t V)) : batch V :=
  mkBatch (CloudWatchDriver.serviceNamespace this) metricsData.

(** Every timer that is armed is the one the collector holds in
    [_flushTimer]. *)
Definition holds_the_timers `{JsArith V} (this : MetricCollector.t (V := V))
  (w : world V) : Prop :=
  forall t, In t (timers w) -> MetricCollector._flushTimer this = Some (timer_id t).

(** [collector.addMetrics(a1).addMetrics(a2)...], ended by the first call
    that throws. *)
Definition addMetrics_in_turn `{JsArith V} (this : MetricCollector.t (V := V))
  (calls : list (JS.one_or_many (metric V)))
  : MetricCollector.t (V := V) * JS.completion unit :=
  JS.forEach (fun given collector => MetricCollector.addMetrics collector (Some given))
             calls this.

(** The values of the dimensions of a metric, as its key lists them. *)
Definition dimension_values {Val} (m : metric Val) : option (list (option string)) :=
  match m_dimensions m with
  | None => None
  | Some dimensions =>
      Some (map (fun d => JS.get dimensions d) (JS.Object_keys dimensions))
  end.

(** The keys of [keys] that are not in [seen], each where it comes first. *)
Fixpoint first_seen (seen keys : list string) : list string :=
  match keys with
  | [] => []
  | k :: keys' =>
      if existsb (String.eqb k) seen
      then first_seen seen keys'
      else k :: first_seen (seen ++ [k]) keys'
  end.

(** Every record of the map is stored under its own key. *)
Definition keyed {Val} (m : JS.Map (metric Val)) : Prop :=
  Forall (fun entry => MetricCollector._getMetricKey (snd entry) = JS.Normal (fst entry)) m.

Definition is_error_line (entry : log_entry V) : bool :=
  match entry with
  | LogError _ _ _ => true
  | LogDebug _ _ => false
  end.

Definition error_lines (w : world V) : list (log_entry V) :=
  filter is_error_line (logs w).

End Notions.

(** ** Collectors, drivers and metrics for the examples *)

Module Sample.

(** A transport that fulfils every call. *)
Definition accepting : transport Z := fun _ _ => None.

(** A transport that rejects the call made after [k] earlier ones. *)
Definition rejecting_call (k : nat) : transport Z :=
  fun history _ =>
    if Nat.eqb (length history) k then Some (mkError "Throttling" false) else None.

Definition driver (client : transport Z) : CloudWatchDriver.t :=
  CloudWatchDriver.mk "test" client console.

Definition nothing_yet : world Z := mkWorld [] 0 [] [].

(** [{ name: 'metric', value: i }] for i = 0 .. n-1, as the driver's test
    for chunking builds them. *)
Definition numbered (n : nat) : list (metric (metric_value Z)) :=
  map (fun i => mkMetric "metric" None (Scalar (Z.of_nat i)) None None None)
      (seq 0 n).

Definition numbered_entries (n : nat) : list (MetricDatum.t Z) :=
  map (fun i => MetricDatum.mk "metric" [] None None (Some (Z.of_nat i)) None)
      (seq 0 n).

(** A collector as [new MetricCollector({ serviceNamespace: 'test' })]
    makes it. *)
Definition manual (client : transport Z) : MetricCollector.t :=
  MetricCollector.mk (driver client) false 20000 [] true None.

(** A collector in automatic mode with its timer armed. *)
Definition automatic (client : transport Z) : MetricCollector.t :=
  MetricCollector.mk (driver client) true 20000 [] false (Some 0).

Definition timer_armed : world Z := mkWorld [mkTimer 0 20000] 1 [] [].

(** [{ name: 'eventCount', dimensions: { eventName: 'X' }, value: v }] *)
Definition eventCount (v : Z) : metric Z :=
  mkMetric "eventCount" (Some [("eventName", "X")]) v None None None.

(** The same identity under another dimension name, unit and timestamp. *)
Definition eventCount_other (v : Z) : metric Z :=
  mkMetric "eventCount" (Some [("event", "X")]) v None (Some "Count")
           (Some (Number 1500000000000)).

Definition processingTime (v : Z) : metric Z :=
  mkMetric "processingTime" (Some [("eventName", "X")]) v None (Some "Milliseconds") None.

Definition no_dimensions (v : Z) : metric Z :=
  mkMetric "eventCount" None v None None None.

End Sample.

(** ** The life of a collector *)

Section Life.
Context {V : Type} `{JsArith V}.

(** [this.auto && !this._stopped] *)
Definition running (this : MetricCollector.t (V := V)) : bool :=
  MetricCollector.auto this && negb (MetricCollector._stopped this).

(** A timer runs out: the event loop takes it off the armed timers and
    calls its callback, [this.flush.bind(this)].  A handle that is not
    armed has nothing to run. *)
Definition expire (handle : nat) (this : MetricCollector.t (V := V)) (w : world V)
  : option (MetricCollector.t (V := V) * world V * promise V) :=
  if existsb (fun t => Nat.eqb (timer_id t) handle) (timers w)
  then Some (MetricCollector.flush this
               (mkWorld (filter (fun t => negb (Nat.eqb (timer_id t) handle)) (timers w))
                        (next_timer w) (puts w) (logs w)))
  else None.

(** What happens to a collector: the calls of its owner, a timer running
    out, and the submits in flight going on, which add to the calls of the
    transport and to the log. *)
Inductive event : Type :=
| AddMetrics (metricsData : option (JS.one_or_many (metric V)))
| ClearMetrics
| Flush
| Stop
| Expire (handle : nat)
| InFlight (sent : list (batch V)) (lines : list (log_entry V)).

(** The collector and the world after an event; the promise a call
    returns is left to the [InFlight] events. *)
Definition after_event (e : event) (state : MetricCollector.t (V := V) * world V)
  : MetricCollector.t (V := V) * world V :=
  let (this, w) := state in
  match e with
  | AddMetrics metricsData => (fst (MetricCollector.addMetrics this metricsData), w)
  | ClearMetrics => (MetricCollector.clearMetrics this, w)
  | Flush => fst (MetricCollector.flush this w)
  | Stop => fst (MetricCollector.stop this w)
  | Expire handle =>
      match expire handle this w with
      | Some result => fst result
      | None => (this, w)
      end
  | InFlight sent lines =>
      (this, mkWorld (timers w) (next_timer w) (puts w ++ sent) (logs w ++ lines))
  end.

Definition after_events (events : list event)
  (state : MetricCollector.t (V := V) * world V)
  : MetricCollector.t (V := V) * world V :=
  fold_left (fun state e => after_event e state) events state.

(** What can be done to a collector: the events above, and
    [_setupFlushTimer()] called from outside. *)
Inductive operation : Type :=
| Happens (e : event)
| SetupFlushTimer.

Definition after_operation (o : operation)
  (state : MetricCollector.t (V := V) * world V)
  : MetricCollector.t (V := V) * world V :=
  match o with
  | Happens e => after_event e state
  | SetupFlushTimer =>
      let (this, w) := state in MetricCollector._setupFlushTimer this w
  end.

Definition after_operations (operations : list operation)
  (state : MetricCollector.t (V := V) * world V)
  : MetricCollector.t (V := V) * world V :=
  fold_left (fun state o => after_operation o state) operations state.

(** The timer of a collector is in step with its mode: while it is
    running, the one timer armed is the one in [_flushTimer], set to
    [flushFrequency]; otherwise none is armed; and the handles given out
    so far are below the next one. *)
Definition timer_in_step (this : MetricCollector.t (V := V)) (w : world V) : Prop :=
  (forall h, MetricCollector._flushTimer this = Some h -> h < next_timer w) /\
  (if running this
   then exists h, MetricCollector._flushTimer this = Some h /\
                  timers w = [mkTimer h (MetricCollector.flushFrequency this)]
   else timers w = []).

(** A record holds the fields of [first] and, as its value, further
    samples after those of [first]. *)
Definition grown_from {Val} (first record : metric (list Val)) : Prop :=
  m_name record = m_name first /\
  m_dimensions record = m_dimensions first /\
  m_unit record = m_unit first /\
  m_units record = m_units first /\
  m_timestamp record = m_timestamp first /\
  exists more, m_value record = m_value first ++ more.

(** Entry by entry: the same key, and a record grown from the old one. *)
Definition entry_grown (old new : string * metric (list V)) : Prop :=
  fst new = fst old /\ grown_from (snd old) (snd new).

(** The old entries, each grown, and new entries after them. *)
Definition map_grown (m m' : JS.Map (metric (list V))) : Prop :=
  exists kept added, m' = kept ++ added /\ Forall2 entry_grown m kept.

(** The number of samples a collector holds. *)
Definition sample_count (this : MetricCollector.t (V := V)) : nat :=
  list_sum (map (fun record => length (m_value record))
                (MetricCollector.getMetrics this)).

(** The map of a collector is well kept: no key twice, every record under
    its own key, no record without a sample. *)
Definition well_kept (this : MetricCollector.t (V := V)) : Prop :=
  NoDup (JS.Map_keys (MetricCollector._metrics this)) /\
  keyed (MetricCollector._metrics this) /\
  Forall (fun record => m_value record <> []) (MetricCollector.getMetrics this).

(** The samples a batch accounts for. *)
Definition samples_sent (metrics : batch V) : nat :=
  list_sum (map (fun entry =>
                   match MetricDatum.StatisticValues entry with
                   | Some statistics => StatisticSet.SampleCount statistics
                   | None => 1
                   end)
                (MetricData metrics)).

End Life.

(** ** Further collectors and metrics for the examples *)

Module Scene.

(** [{ name: 'latency', dimensions: { region: 'eu', tenant: 't1' },
      value: 3, unit: 'Milliseconds' }] *)
Definition latency : metric (metric_value Z) :=
  mkMetric "latency" (Some [("region", "eu"); ("tenant", "t1")]) (Scalar 3%Z)
           (Some "Milliseconds") None None.

Definition latency_entry : MetricDatum.t Z :=
  MetricDatum.mk "latency"
    [Dimension.mk "region" (Some "eu"); Dimension.mk "tenant" (Some "t1")]
    None None (Some 3%Z) (Some "Milliseconds").

(** [{ name: 'empty', value: [] }] *)
Definition no_samples : metric (metric_value Z) :=
  mkMetric "empty" None (Samples []) None None None.

(** [{ serviceNamespace: 'test', auto: true, client }] *)
Definition auto_options : Options.t Z :=
  Options.mk (Some "test") (Some true) None (Some Sample.accepting) None.

(** A collector that holds one record, of one [eventCount] sample. *)
Definition one_record : MetricCollector.t :=
  fst (MetricCollector.addMetrics (Sample.manual Sample.accepting)
         (Some (JS.One (Sample.eventCount 1)))).

(** A collector that holds two records, of three samples. *)
Definition two_records : MetricCollector.t :=
  fst (MetricCollector.addMetrics (Sample.manual Sample.accepting)
         (Some (JS.Many [Sample.eventCount 1; Sample.processingTime 2;
                         Sample.eventCount 3]))).

(** Some events in the life of a collector. *)
Definition day : list event :=
  [AddMetrics (Some (JS.One (Sample.eventCount 1))); Flush; Expire 1;
   InFlight [] []; Stop; Flush; Expire 2].

(** [{ name: 'n', dimensions: { a: 'x', b: 'y' }, value: 1 }] and
    [{ name: 'n:x', dimensions: { b: 'y' }, value: 2 }] *)
Definition named_n : metric Z :=
  mkMetric "n" (Some [("a", "x"); ("b", "y")]) 1%Z None None None.

Definition named_n_x : metric Z :=
  mkMetric "n:x" (Some [("b", "y")]) 2%Z None None None.

End Scene.

(** * Properties *)

(** ** The wire entry of one metric *)

Section WireEntry.
Context {V : Type} `{JsArith V}.

Lemma statisticValues_cons (v : V) (vs : list V) :
  CloudWatchDriver.statisticValues (v :: vs) =
  JS.Normal (StatisticSet.mk (fold_left Math_max vs v) (fold_left Math_min vs v)
                             (S (length vs)) (fold_left js_add vs v)).
Proof. reflexivity. Qed.

Lemma statisticValues_nil :
  CloudWatchDriver.statisticValues (@nil V) =
  JS.Throw (JS.TypeError "Reduce of empty array with no initial value").
Proof. reflexivity. Qed.

Lemma wireEntry_scalar (m : metric (metric_value V)) (x : V) :
  m_value m = Scalar x ->
  exists e, CloudWatchDriver.wireEntry m = JS.Normal e /\
            MetricDatum.Value e = Some x /\
            MetricDatum.StatisticValues e = None.
Proof.
  intros Hx. unfold CloudWatchDriver.wireEntry. rewrite Hx.
  eexists. split; [reflexivity | split; reflexivity].
Qed.

(** C1, as the code has it: a record kept by the collector carries an array
    of k >= 1 samples, and its wire entry has no [Value] and has
    [StatisticValues] folded over the k samples, [SampleCount] k; that is
    so for k = 1 too.  [Value] is set, and [StatisticValues] is not, only
    for a raw metric whose value is not an array. *)
Theorem record_is_sent_as_statistics
  (record : metric (list V)) (v : V) (vs : list V)
  (Hvalue : m_value record = v :: vs) :
  (exists e,
      CloudWatchDriver.wireEntry (MetricCollector.rawMetric record) = JS.Normal e /\
      MetricDatum.Value e = None /\
      MetricDatum.StatisticValues e =
        Some (StatisticSet.mk (fold_left Math_max vs v) (fold_left Math_min vs v)
                              (length (m_value record)) (fold_left js_add vs v))) /\
  (forall (m : metric (metric_value V)) (x : V),
      m_value m = Scalar x ->
      exists e, CloudWatchDriver.wireEntry m = JS.Normal e /\
                MetricDatum.Value e = Some x /\
                MetricDatum.StatisticValues e = None).
Proof.
  split; [| exact wireEntry_scalar].
  unfold CloudWatchDriver.wireEntry, MetricCollector.rawMetric. cbn [m_value assign_value].
  rewrite Hvalue, statisticValues_cons.
  eexists. split; [reflexivity | split; reflexivity].
Qed.

End WireEntry.

(** ** Chunks *)

Section Chunks.
Context {A : Type}.

(** Induction along the recursion of [pieces]. *)
Lemma pieces_ind (n : nat) (P : list A -> Prop) :
  P [] ->
  (forall x xs, P (skipn n xs) -> P (x :: xs)) ->
  forall l, P l.
Proof.
  intros Hnil Hcons l.
  remember (length l) as k eqn:Hk.
  revert l Hk. induction k as [k IH] using lt_wf_ind. intros l Hk.
  destruct l as [| x xs]; [exact Hnil |].
  apply Hcons. apply (IH (length (skipn n xs))); [| reflexivity].
  subst k. rewrite length_skipn. simpl. lia.
Qed.

Lemma concat_pieces (n : nat) (l : list A) : concat (pieces n l) = l.
Proof.
  induction l as [| x xs IH] using (pieces_ind n); simp pieces; [reflexivity |].
  cbn [concat]. rewrite IH. cbn [app]. now rewrite firstn_skipn.
Qed.

Lemma nth_pieces (n : nat) (l : list A) :
  forall i, nth i (pieces n l) [] = firstn (S n) (skipn (i * S n) l).
Proof.
  induction l as [| x xs IH] using (pieces_ind n); intros i; simp pieces.
  - rewrite skipn_nil, firstn_nil. now destruct i.
  - destruct i as [| j]; [reflexivity |].
    cbn [nth]. rewrite IH, skipn_skipn.
    replace (S j * S n) with (S (j * S n + n)) by lia. reflexivity.
Qed.

Lemma length_pieces (n : nat) (l : list A) :
  length (pieces n l) = (length l + n) / S n.
Proof.
  induction l as [| x xs IH] using (pieces_ind n); simp pieces.
  - cbn [length]. now rewrite Nat.div_small by lia.
  - cbn [length]. rewrite IH, length_skipn.
    destruct (Nat.le_gt_cases n (length xs)) as [Hle | Hlt].
    + replace (length xs - n + n) with (length xs) by lia.
      replace (S (length xs) + n) with (length xs + 1 * S n) by lia.
      rewrite Nat.div_add by lia. lia.
    + replace (length xs - n + n) with n by lia.
      rewrite Nat.div_small by lia.
      apply Nat.div_unique with (r := length xs); lia.
Qed.

End Chunks.

(** ** The queue of batches *)

Section Queue.
Context {V : Type} `{JsArith V}.

Lemma map_throw_cons_inv {A B} (f : A -> JS.completion B) x l ys :
  JS.map_throw f (x :: l) = JS.Normal ys ->
  exists y ys', ys = y :: ys' /\ f x = JS.Normal y /\ JS.map_throw f l = JS.Normal ys'.
Proof.
  cbn [JS.map_throw]. destruct (f x) as [y |]; [| discriminate].
  destruct (JS.map_throw f l) as [ys' |]; [| discriminate].
  intros [= <-]. now exists y, ys'.
Qed.

Lemma map_throw_firstn {A B} (f : A -> JS.completion B) n :
  forall l ys, JS.map_throw f l = JS.Normal ys ->
               JS.map_throw f (firstn n l) = JS.Normal (firstn n ys).
Proof.
  induction n as [| n IH]; intros l ys Hl; [reflexivity |].
  destruct l as [| x l].
  - cbn in Hl. injection Hl as <-. reflexivity.
  - apply map_throw_cons_inv in Hl as (y & ys' & -> & Hx & Hl).
    cbn [firstn JS.map_throw]. now rewrite Hx, (IH _ _ Hl).
Qed.

Lemma map_throw_skipn {A B} (f : A -> JS.completion B) n :
  forall l ys, JS.map_throw f l = JS.Normal ys ->
               JS.map_throw f (skipn n l) = JS.Normal (skipn n ys).
Proof.
  induction n as [| n IH]; intros l ys Hl; [exact Hl |].
  destruct l as [| x l].
  - cbn in Hl. injection Hl as <-. reflexivity.
  - apply map_throw_cons_inv in Hl as (y & ys' & -> & Hx & Hl).
    cbn [skipn]. now apply IH.
Qed.

Lemma map_throw_length {A B} (f : A -> JS.completion B) :
  forall l ys, JS.map_throw f l = JS.Normal ys -> length ys = length l.
Proof.
  induction l as [| x l IH]; intros ys Hl.
  - cbn in Hl. now injection Hl as <-.
  - apply map_throw_cons_inv in Hl as (y & ys' & -> & Hx & Hl).
    cbn [length]. now rewrite (IH _ Hl).
Qed.

(** Encoding chunk by chunk is encoding the whole list and cutting it. *)
Lemma map_throw_pieces {A B} (f : A -> JS.completion B) n :
  forall l ys, JS.map_throw f l = JS.Normal ys ->
    Forall2 (fun c es => JS.map_throw f c = JS.Normal es) (pieces n l) (pieces n ys).
Proof.
  induction l as [| x xs IH] using (pieces_ind n); intros ys Hl.
  - cbn in Hl. injection Hl as <-. simp pieces. constructor.
  - apply map_throw_cons_inv in Hl as (y & ys' & -> & Hx & Hl).
    simp pieces. constructor.
    + cbn [JS.map_throw]. now rewrite Hx, (map_throw_firstn f n _ _ Hl).
    + apply IH. now apply map_throw_skipn.
Qed.

Lemma Forall2_rev {A B} (R : A -> B -> Prop) l l' :
  Forall2 R l l' -> Forall2 R (rev l) (rev l').
Proof.
  induction 1 as [| x y l l' Hxy Hl IH]; [constructor |].
  cbn [rev]. apply Forall2_app; [exact IH | now constructor].
Qed.

Lemma Forall2_map_order {A B} (R : A -> B -> Prop) l l' :
  Forall2 R l l' -> Forall2 R (map_order l) (map_order l').
Proof.
  destruct 1 as [| x y l l' Hxy Hl]; [constructor |].
  cbn [map_order]. constructor; [exact Hxy | now apply Forall2_rev].
Qed.

Lemma after_sending_nil (l : Logger) (w : world V) : after_sending l [] w = w.
Proof.
  destruct w. unfold after_sending, debug_lines. cbn.
  destruct (has_debug l); cbn; now rewrite !app_nil_r.
Qed.

Lemma after_sending_cons (l : Logger) metrics sent (w : world V) :
  after_sending l (metrics :: sent) w
  = after_sending l sent (after_sending l [metrics] w).
Proof.
  unfold after_sending, debug_lines. cbn.
  destruct (has_debug l); cbn; now rewrite <- !app_assoc.
Qed.

Variable this : CloudWatchDriver.t (V := V).

Lemma sendBatch_fulfilled metricsBatch es (w : world V) :
  JS.map_throw CloudWatchDriver.wireEntry metricsBatch = JS.Normal es ->
  CloudWatchDriver.client this (puts w) (batch_of this es) = None ->
  CloudWatchDriver.sendBatch this metricsBatch w
  = (after_sending (CloudWatchDriver.logger this) [batch_of this es] w, Resolved).
Proof.
  intros Hes Hc. unfold CloudWatchDriver.sendBatch. rewrite Hes.
  unfold after_sending, debug_lines, batch_of in *.
  destruct (has_debug (CloudWatchDriver.logger this)); cbn [puts log];
    rewrite Hc; unfold put; cbn; now rewrite ?app_nil_r.
Qed.

Lemma sendBatch_rejected metricsBatch es err (w : world V) :
  JS.map_throw CloudWatchDriver.wireEntry metricsBatch = JS.Normal es ->
  CloudWatchDriver.client this (puts w) (batch_of this es) = Some err ->
  CloudWatchDriver.sendBatch this metricsBatch w
  = (log (LogError err (batch_of this es) "failed to send metrics")
         (after_sending (CloudWatchDriver.logger this) [batch_of this es] w),
     Rejected (Failed (set_logged err))).
Proof.
  intros Hes Hc. unfold CloudWatchDriver.sendBatch. rewrite Hes.
  unfold after_sending, debug_lines, batch_of in *.
  destruct (has_debug (CloudWatchDriver.logger this)); cbn [puts log];
    rewrite Hc; unfold put, log; cbn; now rewrite ?app_nil_r.
Qed.

(** While the transport fulfils, the queue is worked off in its order. *)
Lemma run_queue_sent queue ess :
  Forall2 (fun c es => JS.map_throw CloudWatchDriver.wireEntry c = JS.Normal es)
          queue ess ->
  forall rest (w : world V),
    fulfils (CloudWatchDriver.client this) (puts w) (map (batch_of this) ess) = true ->
    run_queue (CloudWatchDriver.sendBatch this) (queue ++ rest) w
    = run_queue (CloudWatchDriver.sendBatch this) rest
                (after_sending (CloudWatchDriver.logger this) (map (batch_of this) ess) w).
Proof.
  induction 1 as [| c es queue ess Hc Hq IH]; intros rest w Hful.
  - cbn [map app]. now rewrite after_sending_nil.
  - cbn [map fulfils] in Hful.
    destruct (CloudWatchDriver.client this (puts w) (batch_of this es)) eqn:Hcl;
      [discriminate |].
    cbn [app run_queue map]. rewrite (sendBatch_fulfilled _ _ _ Hc Hcl).
    rewrite (after_sending_cons _ (batch_of this es) (map (batch_of this) ess)).
    apply IH. exact Hful.
Qed.

End Queue.

(** ** Submitting: one call per chunk, and the first failure ends it *)

Section Submit.
Context {V : Type} `{JsArith V}.
Variable this : CloudWatchDriver.t (V := V).

Lemma length_map_order {A} (l : list A) : length (map_order l) = length l.
Proof. destruct l; cbn; [reflexivity |]. now rewrite length_rev. Qed.

Lemma fulfils_always (history calls : list (batch V)) :
  (forall h metrics, CloudWatchDriver.client this h metrics = None) ->
  fulfils (CloudWatchDriver.client this) history calls = true.
Proof.
  intros Hok. revert history.
  induction calls as [| b calls IH]; intros history; cbn; [reflexivity |].
  rewrite Hok. apply IH.
Qed.

Lemma error_lines_debug (l : Logger) (sent : list (batch V)) :
  filter is_error_line (debug_lines l sent) = [].
Proof.
  unfold debug_lines. destruct (has_debug l); [| reflexivity].
  induction sent as [| b sent IH]; cbn; auto.
Qed.

(** C3, as the code has it: when every record encodes and the transport
    fulfils every call, submitting N records makes ceil(N/20) transport
    calls, one for each chunk of the consecutive cutting of the entries
    into twenties (chunk i holds entries 20i .. 20i+19 in their order, the
    chunks before the last hold 20 entries, the last one the remainder
    when there is one, and together they are the entries, each once).
    The calls are made one at a time in the order of [map_order]: the
    first chunk, then the other chunks from the last one back. *)
Theorem sendMetrics_one_call_per_chunk
  (records : list (metric (metric_value V)))
  (entries : list (MetricDatum.t V)) (w : world V)
  (Hencoded : JS.map_throw CloudWatchDriver.wireEntry records = JS.Normal entries)
  (Hfulfils :
     fulfils (CloudWatchDriver.client this) (puts w)
       (map (batch_of this)
            (map_order (chunk entries CloudWatchDriver.METRIC_COUNT_LIMIT))) = true) :
  let N := length records in
  let chunks := chunk entries CloudWatchDriver.METRIC_COUNT_LIMIT in
  exists w',
    CloudWatchDriver.sendMetrics this (JS.Many records) w = (w', Resolved) /\
    puts w' = puts w ++ map (batch_of this) (map_order chunks) /\
    length (map_order chunks) = (N + 19) / 20 /\
    concat chunks = entries /\
    (forall i, nth i chunks [] = firstn 20 (skipn (i * 20) entries)) /\
    (forall i, i < N / 20 -> length (nth i chunks []) = 20) /\
    (N mod 20 <> 0 -> length (nth (N / 20) chunks []) = N mod 20).
Proof.
  intros N chunks.
  assert (HN : length entries = N) by (apply (map_throw_length _ _ _ Hencoded)).
  assert (Hnth : forall i, nth i chunks [] = firstn 20 (skipn (i * 20) entries))
    by (intros i; apply nth_pieces).
  eexists. repeat split.
  - unfold CloudWatchDriver.sendMetrics, BPromise_map. cbn [JS.concat].
    pose proof (Forall2_map_order _ _ _
                  (map_throw_pieces CloudWatchDriver.wireEntry 19 _ _ Hencoded))
      as Hq.
    change (chunk records CloudWatchDriver.METRIC_COUNT_LIMIT) with (pieces 19 records).
    rewrite <- (app_nil_r (map_order (pieces 19 records))).
    rewrite (run_queue_sent this _ _ Hq [] w Hfulfils). reflexivity.
  - reflexivity.
  - rewrite length_map_order. unfold chunks, chunk. cbn [CloudWatchDriver.METRIC_COUNT_LIMIT].
    now rewrite length_pieces, HN.
  - apply concat_pieces.
  - exact Hnth.
  - intros i Hi. rewrite Hnth, length_firstn, length_skipn, HN.
    pose proof (Nat.Div0.mul_div_le N 20). lia.
  - intros Hrem. rewrite Hnth, length_firstn, length_skipn, HN.
    pose proof (Nat.div_mod_eq N 20). pose proof (Nat.mod_upper_bound N 20). lia.
Qed.

(** C9, as the code has it, with the chunks in the order of the calls
    ([map_order]: the first chunk, then the others from the last one
    back): when the transport rejects a batch of a submit, after fulfilling
    the ones handed to it before, the submit is rejected with that same
    error, now marked [_logged]; the error went to the logger once, at
    error level, with the batch that failed; and the failing batch is the
    last one the transport sees: the chunks still in the queue are not
    submitted.  The promise of [flush] and of [stop] is the promise of the
    submit, so their caller gets the same rejection. *)
Theorem transport_failure_ends_submit
  (rawMetrics : JS.one_or_many (metric (metric_value V))) (w : world V)
  (before after : list (list (metric (metric_value V))))
  (failing : list (metric (metric_value V)))
  (sent : list (list (MetricDatum.t V))) (metricsData : list (MetricDatum.t V))
  (err : error)
  (Hqueue : map_order (chunk (JS.concat rawMetrics) CloudWatchDriver.METRIC_COUNT_LIMIT)
            = before ++ failing :: after)
  (Hbefore : Forall2 (fun c es => JS.map_throw CloudWatchDriver.wireEntry c = JS.Normal es)
                     before sent)
  (Hfailing : JS.map_throw CloudWatchDriver.wireEntry failing = JS.Normal metricsData)
  (Hfulfilled : fulfils (CloudWatchDriver.client this) (puts w)
                        (map (batch_of this) sent) = true)
  (Hrejects : CloudWatchDriver.client this (puts w ++ map (batch_of this) sent)
                                      (batch_of this metricsData) = Some err) :
  exists w',
    CloudWatchDriver.sendMetrics this rawMetrics w
      = (w', Rejected (Failed (set_logged err))) /\
    _logged (set_logged err) = true /\
    err_message (set_logged err) = err_message err /\
    puts w' = puts w ++ map (batch_of this) sent ++ [batch_of this metricsData] /\
    error_lines w'
      = error_lines w ++ [LogError err (batch_of this metricsData) "failed to send metrics"] /\
    (forall (collector : MetricCollector.t) (w0 : world V),
        MetricCollector.cloudwatchDriver collector = this ->
        MetricCollector.getMetrics collector <> [] ->
        rawMetrics = JS.Many (map MetricCollector.rawMetric
                                  (MetricCollector.getMetrics collector)) ->
        snd (MetricCollector.flush collector w0) w
          = (w', Rejected (Failed (set_logged err))) /\
        (MetricCollector._stopped collector = false ->
         snd (MetricCollector.stop collector w0) w
           = (w', Rejected (Failed (set_logged err))))).
Proof.
  assert (Hsend :
    CloudWatchDriver.sendMetrics this rawMetrics w
    = (log (LogError err (batch_of this metricsData) "failed to send metrics")
           (after_sending (CloudWatchDriver.logger this) [batch_of this metricsData]
              (after_sending (CloudWatchDriver.logger this)
                             (map (batch_of this) sent) w)),
       Rejected (Failed (set_logged err)))).
  { unfold CloudWatchDriver.sendMetrics, BPromise_map. rewrite Hqueue.
    rewrite (run_queue_sent this _ _ Hbefore _ w Hfulfilled).
    cbn [run_queue]. rewrite (sendBatch_rejected this _ _ err _ Hfailing); [reflexivity |].
    exact Hrejects. }
  eexists. split; [exact Hsend |]. repeat split.
  - cbn. now rewrite <- app_assoc.
  - unfold error_lines. cbn. rewrite !filter_app, !error_lines_debug. cbn.
    now rewrite !app_nil_r.
  - subst rawMetrics this. rewrite <- Hsend.
    unfold MetricCollector.flush.
    destruct (MetricCollector.getMetrics collector) as [| r rs] eqn:Hm;
      [contradiction |].
    cbn [length Nat.eqb].
    destruct (MetricCollector.auto _ && negb _); reflexivity.
  - intros Hrun. subst rawMetrics this. rewrite <- Hsend.
    unfold MetricCollector.stop. rewrite Hrun.
    unfold MetricCollector.flush.
    change (MetricCollector.getMetrics (MetricCollector.with_stopped collector true))
      with (MetricCollector.getMetrics collector).
    destruct (MetricCollector.getMetrics collector) as [| r rs] eqn:Hm;
      [contradiction |].
    cbn [length Nat.eqb].
    destruct (MetricCollector.auto _ && negb _); reflexivity.
Qed.

End Submit.

(** ** Flushing and stopping *)

Section Lifecycle.
Context {V : Type} `{JsArith V}.
Variable AWS_CloudWatch : transport V.

Lemma flush_state (this : MetricCollector.t) (w : world V) :
  fst (MetricCollector.flush this w)
  = if MetricCollector.auto this && negb (MetricCollector._stopped this)
    then MetricCollector._setupFlushTimer (MetricCollector.clearMetrics this) w
    else (MetricCollector.clearMetrics this, w).
Proof.
  unfold MetricCollector.flush.
  change (MetricCollector.auto (MetricCollector.clearMetrics this))
    with (MetricCollector.auto this).
  change (MetricCollector._stopped (MetricCollector.clearMetrics this))
    with (MetricCollector._stopped this).
  destruct (MetricCollector.auto this && negb (MetricCollector._stopped this));
    cbn [MetricCollector._setupFlushTimer setTimeout];
    destruct (Nat.eqb _ 0); reflexivity.
Qed.

Lemma flush_promise (this : MetricCollector.t) (w : world V) :
  snd (MetricCollector.flush this w)
  = if Nat.eqb (length (MetricCollector.getMetrics this)) 0
    then BPromise_resolve
    else CloudWatchDriver.sendMetrics (MetricCollector.cloudwatchDriver this)
           (JS.Many (map MetricCollector.rawMetric (MetricCollector.getMetrics this))).
Proof.
  unfold MetricCollector.flush.
  destruct (MetricCollector.auto _ && negb _);
    cbn [MetricCollector._setupFlushTimer setTimeout];
    destruct (Nat.eqb _ 0); reflexivity.
Qed.

Lemma flush_metrics (this : MetricCollector.t) (w : world V) :
  MetricCollector._metrics (fst (fst (MetricCollector.flush this w))) = [].
Proof.
  rewrite flush_state. destruct (MetricCollector.auto this && negb _); reflexivity.
Qed.

Lemma flush_puts_logs (this : MetricCollector.t) (w : world V) :
  puts (snd (fst (MetricCollector.flush this w))) = puts w /\
  logs (snd (fst (MetricCollector.flush this w))) = logs w.
Proof.
  rewrite flush_state. destruct (MetricCollector.auto this && negb _).
  - unfold MetricCollector._setupFlushTimer, clearTimeout. cbn.
    destruct (MetricCollector._flushTimer this); split; reflexivity.
  - split; reflexivity.
Qed.

(** C4: with nothing accumulated, [flush()] returns a promise that is
    already fulfilled, and neither the call nor the promise reaches the
    transport. *)
Theorem flush_of_nothing_skips_transport
  (this : MetricCollector.t) (w : world V)
  (Hempty : MetricCollector._metrics this = []) :
  snd (MetricCollector.flush this w) = BPromise_resolve /\
  (forall w1, snd (MetricCollector.flush this w) w1 = (w1, Resolved)) /\
  puts (snd (fst (MetricCollector.flush this w))) = puts w.
Proof.
  assert (Hp : snd (MetricCollector.flush this w) = BPromise_resolve).
  { rewrite flush_promise. unfold MetricCollector.getMetrics. now rewrite Hempty. }
  split; [exact Hp |]. split.
  - intros w1. now rewrite Hp.
  - apply flush_puts_logs.
Qed.

(** C5: when [flush()] returns its promise, the map is already empty and
    the transport has not been called yet; what the promise then does, it
    does to the snapshot and the world, so the map is empty after the
    flush whether the submit is fulfilled or rejected, and nothing is put
    back. *)
Theorem flush_clears_before_sending (this : MetricCollector.t) (w : world V) :
  MetricCollector._metrics (fst (fst (MetricCollector.flush this w))) = [] /\
  MetricCollector.getMetrics (fst (fst (MetricCollector.flush this w))) = [] /\
  puts (snd (fst (MetricCollector.flush this w))) = puts w /\
  snd (MetricCollector.flush this w)
  = (if Nat.eqb (length (MetricCollector.getMetrics this)) 0
     then BPromise_resolve
     else CloudWatchDriver.sendMetrics (MetricCollector.cloudwatchDriver this)
            (JS.Many (map MetricCollector.rawMetric (MetricCollector.getMetrics this)))).
Proof.
  split; [apply flush_metrics |]. split.
  - unfold MetricCollector.getMetrics. now rewrite flush_metrics.
  - split; [apply flush_puts_logs | apply flush_promise].
Qed.

Lemma clearTimeout_held (this : MetricCollector.t) (w : world V) :
  holds_the_timers this w ->
  timers (clearTimeout (MetricCollector._flushTimer this) w) = [].
Proof.
  unfold holds_the_timers, clearTimeout. intros Hheld.
  destruct (MetricCollector._flushTimer this) as [h |] eqn:Hh.
  - cbn. induction (timers w) as [| t ts IH]; [reflexivity |].
    cbn. specialize (Hheld t (or_introl eq_refl)) as Ht. injection Ht as ->.
    rewrite Nat.eqb_refl. cbn. apply IH. intros t' Ht'. apply Hheld. now right.
  - destruct (timers w) as [| t ts]; [reflexivity |].
    specialize (Hheld t (or_introl eq_refl)). discriminate.
Qed.

Lemma new_not_auto (options : Options.t V) (w w' : world V) this :
  Options.auto options = None \/ Options.auto options = Some false ->
  MetricCollector.new AWS_CloudWatch options w = JS.Normal (this, w') ->
  w' = w /\ MetricCollector._stopped this = true /\
  MetricCollector._metrics this = [] /\ MetricCollector.auto this = false.
Proof.
  unfold MetricCollector.new, CloudWatchDriver.new.
  destruct (JS.assert _ "missing options.serviceNamespace"); [| discriminate].
  cbn [Options.serviceNamespace].
  destruct (JS.assert _ "serviceNamespace is required"); [| discriminate].
  intros [-> | ->]; intros [= <- <-]; repeat split.
Qed.

(** The collector keeps hold of its timers: [_setupFlushTimer] clears the
    one it had before it arms the next. *)
Lemma setupFlushTimer_holds (this : MetricCollector.t) (w : world V) :
  holds_the_timers this w ->
  holds_the_timers (fst (MetricCollector._setupFlushTimer this w))
                   (snd (MetricCollector._setupFlushTimer this w)).
Proof.
  intros Hheld. unfold MetricCollector._setupFlushTimer, setTimeout.
  cbn [fst snd timers]. rewrite (clearTimeout_held _ _ Hheld).
  intros t [<- | []]. reflexivity.
Qed.

Lemma flush_holds (this : MetricCollector.t) (w : world V) :
  holds_the_timers this w ->
  holds_the_timers (fst (fst (MetricCollector.flush this w)))
                   (snd (fst (MetricCollector.flush this w))).
Proof.
  intros Hheld. rewrite flush_state.
  destruct (MetricCollector.auto this && negb (MetricCollector._stopped this)).
  - now apply setupFlushTimer_holds.
  - exact Hheld.
Qed.

Lemma new_holds (options : Options.t V) (w w' : world V) this :
  timers w = [] ->
  MetricCollector.new AWS_CloudWatch options w = JS.Normal (this, w') ->
  holds_the_timers this w'.
Proof.
  intros Hw. unfold MetricCollector.new, CloudWatchDriver.new.
  destruct (JS.assert _ "missing options.serviceNamespace"); [| discriminate].
  cbn [Options.serviceNamespace].
  destruct (JS.assert _ "serviceNamespace is required"); [| discriminate].
  destruct (match Options.auto options with Some b => b | None => false end).
  - intros [= <- <-]. unfold holds_the_timers. cbn. rewrite Hw.
    intros t [<- | []]. reflexivity.
  - intros [= <- <-]. unfold holds_the_timers. rewrite Hw. intros t [].
Qed.

(** C6: [stop()] on a stopped collector changes nothing and returns a
    fulfilled promise; on a running one it is one [flush()] of the
    collector marked stopped with its timer cleared, returning the promise
    of that flush, and it leaves the collector stopped and no timer armed.
    A second [stop()] is therefore the first case.  A collector made with
    [auto] off starts stopped: [stop()] twice leaves the transport alone. *)
Theorem stop_is_idempotent (this : MetricCollector.t) (w : world V) :
  (MetricCollector._stopped this = true ->
   MetricCollector.stop this w = (this, w, BPromise_resolve)) /\
  (MetricCollector._stopped this = false ->
   MetricCollector.stop this w
   = MetricCollector.flush (MetricCollector.with_stopped this true)
                           (clearTimeout (MetricCollector._flushTimer this) w) /\
   snd (MetricCollector.stop this w) = snd (MetricCollector.flush this w) /\
   MetricCollector._stopped (fst (fst (MetricCollector.stop this w))) = true /\
   (holds_the_timers this w ->
    timers (snd (fst (MetricCollector.stop this w))) = [])) /\
  MetricCollector.stop (fst (fst (MetricCollector.stop this w)))
                       (snd (fst (MetricCollector.stop this w)))
  = (fst (MetricCollector.stop this w), BPromise_resolve) /\
  (forall options made w0,
      Options.auto options = None \/ Options.auto options = Some false ->
      MetricCollector.new AWS_CloudWatch options w = JS.Normal (made, w0) ->
      MetricCollector.stop made w0 = (made, w0, BPromise_resolve) /\
      forall w1, puts (fst (snd (MetricCollector.stop made w0) w1)) = puts w1).
Proof.
  assert (Hrun : MetricCollector._stopped this = false ->
                 MetricCollector.stop this w
                 = MetricCollector.flush (MetricCollector.with_stopped this true)
                     (clearTimeout (MetricCollector._flushTimer this) w)).
  { intros Hs. unfold MetricCollector.stop. now rewrite Hs. }
  assert (Hstate : MetricCollector._stopped this = false ->
                   fst (MetricCollector.stop this w)
                   = (MetricCollector.clearMetrics (MetricCollector.with_stopped this true),
                      clearTimeout (MetricCollector._flushTimer this) w)).
  { intros Hs. rewrite (Hrun Hs), flush_state. cbn [MetricCollector._stopped
      MetricCollector.with_stopped negb]. now rewrite andb_false_r. }
  split; [| split; [| split]].
  - intros Hs. unfold MetricCollector.stop. now rewrite Hs.
  - intros Hs. split; [exact (Hrun Hs) |]. split; [| split].
    + rewrite (Hrun Hs), !flush_promise. reflexivity.
    + now rewrite (Hstate Hs).
    + intros Hheld. rewrite (Hstate Hs). cbn [snd]. now apply clearTimeout_held.
  - destruct (MetricCollector._stopped this) eqn:Hs.
    + assert (Hstop : MetricCollector.stop this w = (this, w, BPromise_resolve))
        by (unfold MetricCollector.stop; now rewrite Hs).
      rewrite !Hstop. cbn [fst snd]. exact Hstop.
    + rewrite (Hstate eq_refl). cbn [fst snd]. reflexivity.
  - intros options made w0 Hauto Hnew.
    destruct (new_not_auto _ _ _ _ Hauto Hnew) as (-> & Hs & _).
    unfold MetricCollector.stop. rewrite Hs. split; reflexivity.
Qed.

(** C7, as the code has it: [addMetrics] without an argument throws the
    assertion error at once and leaves the collector as it was; with an
    empty array it throws nothing and leaves the collector as it was; and
    [new MetricCollector] throws the assertion error when
    [serviceNamespace] is missing (or empty). *)
Theorem missing_arguments_are_refused
  (this : MetricCollector.t (V := V)) (options : Options.t V) (w : world V) :
  MetricCollector.addMetrics this None
  = (this, JS.Throw (JS.AssertionError "missing metricsData")) /\
  MetricCollector.addMetrics this (Some (JS.Many [])) = (this, JS.Normal tt) /\
  (JS.truthy_string (Options.serviceNamespace options) = false ->
   MetricCollector.new AWS_CloudWatch options w
   = JS.Throw (JS.AssertionError "missing options.serviceNamespace")).
Proof.
  split; [reflexivity |]. split; [reflexivity |].
  intros Hns. unfold MetricCollector.new. now rewrite Hns.
Qed.

(** C8, where the code differs: an observation without [dimensions] makes
    [_getMetricKey] and so [addMetrics] throw a [TypeError], the collector
    unchanged, whereas the driver reads a missing [dimensions] as no
    dimensions. *)
Theorem addMetrics_without_dimensions_throws
  (this : MetricCollector.t (V := V)) (name : string) (value : V)
  (unit units : option string) (timestamp : option js_time) :
  MetricCollector._getMetricKey (mkMetric name None value unit units timestamp)
  = JS.Throw (JS.TypeError "Cannot convert undefined or null to object") /\
  MetricCollector.addMetrics this
    (Some (JS.One (mkMetric name None value unit units timestamp)))
  = (this, JS.Throw (JS.TypeError "Cannot convert undefined or null to object")) /\
  exists e,
    CloudWatchDriver.wireEntry (mkMetric name None (Scalar value) unit units timestamp)
    = JS.Normal e /\
    MetricDatum.Dimensions e = [].
Proof.
  split; [reflexivity |]. split; [reflexivity |].
  eexists. split; reflexivity.
Qed.

End Lifecycle.

(** ** The map of records *)

Section MapFacts.
Context {A : Type}.

Lemma Map_get_keys (k : string) (m : JS.Map A) :
  JS.Map_get k m = None <-> existsb (String.eqb k) (JS.Map_keys m) = false.
Proof.
  induction m as [| [k' v] m IH]; cbn; [tauto |].
  rewrite (String.eqb_sym k k'). destruct (String.eqb k' k); cbn; [| exact IH].
  split; discriminate.
Qed.

Lemma Map_set_new (k : string) (v : A) (m : JS.Map A) :
  JS.Map_get k m = None -> JS.Map_set k v m = m ++ [(k, v)].
Proof.
  induction m as [| [k' v'] m IH]; cbn; [reflexivity |].
  destruct (String.eqb k' k); [discriminate |]. intros Hm. now rewrite IH.
Qed.

Lemma Map_get_last (k : string) (v : A) (m : JS.Map A) :
  JS.Map_get k m = None -> JS.Map_get k (m ++ [(k, v)]) = Some v.
Proof.
  induction m as [| [k' v'] m IH]; cbn.
  - now rewrite String.eqb_refl.
  - destruct (String.eqb k' k); [discriminate | exact IH].
Qed.

Lemma Map_set_last (k : string) (v v' : A) (m : JS.Map A) :
  JS.Map_get k m = None -> JS.Map_set k v' (m ++ [(k, v)]) = m ++ [(k, v')].
Proof.
  induction m as [| [k0 v0] m IH]; cbn.
  - now rewrite String.eqb_refl.
  - destruct (String.eqb k0 k); [discriminate |]. intros Hm. now rewrite IH.
Qed.

Lemma Map_keys_set_old (k : string) (v : A) (m : JS.Map A) :
  JS.Map_get k m <> None -> JS.Map_keys (JS.Map_set k v m) = JS.Map_keys m.
Proof.
  induction m as [| [k' v'] m IH]; cbn; [congruence |].
  destruct (String.eqb k' k); cbn; [reflexivity |].
  intros Hm. f_equal. now apply IH.
Qed.

Lemma Map_get_In (k : string) (v : A) (m : JS.Map A) :
  JS.Map_get k m = Some v -> In (k, v) m.
Proof.
  induction m as [| [k' v'] m IH]; cbn; [discriminate |].
  destruct (String.eqb k' k) eqn:Hk.
  - apply String.eqb_eq in Hk as ->. intros [= ->]. now left.
  - intros Hm. right. now apply IH.
Qed.

Lemma Map_set_Forall (P : string * A -> Prop) (k : string) (v : A) (m : JS.Map A) :
  P (k, v) -> Forall P m -> Forall P (JS.Map_set k v m).
Proof.
  intros Hv. induction 1 as [| [k' v'] m Hx Hm IH]; cbn.
  - now repeat constructor.
  - destruct (String.eqb k' k) eqn:Hk.
    + apply String.eqb_eq in Hk as ->. now constructor.
    + now constructor.
Qed.

Lemma filter_key_absent (k : string) (m : JS.Map A) :
  JS.Map_get k m = None -> filter (fun entry => String.eqb (fst entry) k) m = [].
Proof.
  induction m as [| [k' v'] m IH]; cbn; [reflexivity |].
  destruct (String.eqb k' k); [discriminate | exact IH].
Qed.

Lemma forEach_app {S} (f : A -> S -> S * JS.completion unit) (l1 l2 : list A) (s : S) :
  JS.forEach f (l1 ++ l2) s
  = match JS.forEach f l1 s with
    | (s', JS.Normal _) => JS.forEach f l2 s'
    | (s', JS.Throw e) => (s', JS.Throw e)
    end.
Proof.
  revert s. induction l1 as [| x l1 IH]; intros s; cbn; [reflexivity |].
  destruct (f x s) as [s' [[] | e]]; [apply IH | reflexivity].
Qed.

End MapFacts.

(** ** Merging observations *)

Section Merging.
Context {V : Type} `{JsArith V}.

Lemma key_of_identity {Val} (o : metric Val) (name : string) values :
  m_name o = name -> dimension_values o = Some values ->
  MetricCollector._getMetricKey o
  = JS.Normal (name ++ ":" ++ JS.join ":" values)%string.
Proof.
  unfold dimension_values, MetricCollector._getMetricKey.
  intros <-. destruct (m_dimensions o); [| discriminate]. now intros [= <-].
Qed.

Lemma addMetric_new (o : metric V) (this : MetricCollector.t (V := V)) (key : string) :
  MetricCollector._getMetricKey o = JS.Normal key ->
  JS.Map_get key (MetricCollector._metrics this) = None ->
  MetricCollector.addMetric o this
  = (MetricCollector.with_metrics this
       (MetricCollector._metrics this ++ [(key, assign_value o [m_value o])]),
     JS.Normal tt).
Proof.
  intros Hk Hm. unfold MetricCollector.addMetric. rewrite Hk, Hm.
  now rewrite Map_set_new.
Qed.

Lemma addMetrics_in_turn_flat (calls : list (JS.one_or_many (metric V)))
  (this : MetricCollector.t (V := V)) :
  addMetrics_in_turn this calls
  = JS.forEach MetricCollector.addMetric (flat_map JS.concat calls) this.
Proof.
  unfold addMetrics_in_turn. revert this.
  induction calls as [| given calls IH]; intros this; [reflexivity |].
  cbn [JS.forEach flat_map]. rewrite forEach_app.
  unfold MetricCollector.addMetrics at 1.
  destruct (JS.forEach MetricCollector.addMetric (JS.concat given) this)
    as [this' [[] | e]]; [apply IH | reflexivity].
Qed.

(** Observations of one key, met when the record of that key is the last
    of the map, all go into that record. *)
Lemma forEach_same_key (key : string) (others : list (metric V)) :
  Forall (fun o => MetricCollector._getMetricKey o = JS.Normal key) others ->
  forall (this : MetricCollector.t (V := V)) m (record : metric (list V)),
    JS.Map_get key m = None ->
    MetricCollector._metrics this = m ++ [(key, record)] ->
    JS.forEach MetricCollector.addMetric others this
    = (MetricCollector.with_metrics this
         (m ++ [(key, assign_value record (m_value record ++ map m_value others))]),
       JS.Normal tt).
Proof.
  induction 1 as [| o others Ho Hothers IH]; intros this m record Hm Hthis.
  - cbn [JS.forEach map]. rewrite app_nil_r. destruct this, record. cbn in *.
    now subst.
  - cbn [JS.forEach]. unfold MetricCollector.addMetric at 1.
    rewrite Ho, Hthis, (Map_get_last _ _ _ Hm), (Map_set_last _ _ _ _ Hm).
    rewrite (IH (MetricCollector.with_metrics this
                   (m ++ [(key, MetricCollector.push record (m_value o))]))
                m (MetricCollector.push record (m_value o)) Hm eq_refl).
    unfold MetricCollector.push, MetricCollector.with_metrics, assign_value.
    cbn. now rewrite <- app_assoc.
Qed.

(** C2: observations that share a name and the sequence of their dimension
    values, given to [addMetrics] in any number of calls, one at a time or
    in arrays, whatever the names of their dimensions, their units and
    timestamps: on a collector that has no record of that identity key yet
    (a new or a cleared one has none at all), the calls succeed and
    [getMetrics()] has, after the records it had, exactly one record of
    the key; it is the first observation with, as its value, the values of
    all the observations in the order they came, as many as were merged. *)
Theorem same_identity_merges_into_one_record
  (this : MetricCollector.t (V := V)) (calls : list (JS.one_or_many (metric V)))
  (name : string) (values : list (option string))
  (first : metric V) (others : list (metric V))
  (Hcalls : flat_map JS.concat calls = first :: others)
  (Hsame : Forall (fun o => m_name o = name /\ dimension_values o = Some values)
                  (first :: others))
  (Hnew : JS.Map_get (name ++ ":" ++ JS.join ":" values)%string
                     (MetricCollector._metrics this) = None) :
  let key := (name ++ ":" ++ JS.join ":" values)%string in
  let record := assign_value first (map m_value (first :: others)) in
  exists this',
    addMetrics_in_turn this calls = (this', JS.Normal tt) /\
    MetricCollector.getMetrics this' = MetricCollector.getMetrics this ++ [record] /\
    filter (fun entry => String.eqb (fst entry) key) (MetricCollector._metrics this')
    = [(key, record)] /\
    m_value record = map m_value (flat_map JS.concat calls) /\
    length (m_value record) = length (flat_map JS.concat calls).
Proof.
  intros key record.
  assert (Hkeys : Forall (fun o => MetricCollector._getMetricKey o = JS.Normal key)
                         (first :: others)).
  { eapply Forall_impl; [| exact Hsame]. intros o [Hn Hv]. now apply key_of_identity. }
  inversion Hkeys as [| ? ? Hfirst Hothers]; subst.
  eexists. split; [| split; [| split; [| split]]].
  - rewrite addMetrics_in_turn_flat, Hcalls. cbn [JS.forEach].
    rewrite (addMetric_new _ _ _ Hfirst Hnew).
    rewrite (forEach_same_key key others Hothers
               (MetricCollector.with_metrics this
                  (MetricCollector._metrics this
                   ++ [(key, assign_value first [m_value first])]))
               (MetricCollector._metrics this)
               (assign_value first [m_value first]) Hnew eq_refl).
    reflexivity.
  - unfold MetricCollector.getMetrics, JS.Map_values. cbn.
    now rewrite map_app.
  - cbn [MetricCollector._metrics MetricCollector.with_metrics].
    subst key. rewrite filter_app, (filter_key_absent _ _ Hnew). cbn.
    now rewrite String.eqb_refl.
  - now rewrite Hcalls.
  - subst record. rewrite Hcalls. cbn [m_value assign_value]. now rewrite !length_map.
Qed.

End Merging.

(** ** The order of the records *)

Section Order.
Context {V : Type} `{JsArith V}.

Lemma keyed_keys {Val} (m : JS.Map (metric Val)) :
  keyed m ->
  map MetricCollector._getMetricKey (JS.Map_values m) = map JS.Normal (JS.Map_keys m).
Proof.
  unfold JS.Map_values, JS.Map_keys.
  induction 1 as [| [k r] m Hr Hm IH]; [reflexivity |].
  cbn [map fst snd] in *. now rewrite Hr, IH.
Qed.

(** One observation: its key goes to the end when it is new, and no key
    moves. *)
Lemma addMetric_keys (o : metric V) (this : MetricCollector.t (V := V)) (key : string) :
  MetricCollector._getMetricKey o = JS.Normal key ->
  exists this',
    MetricCollector.addMetric o this = (this', JS.Normal tt) /\
    JS.Map_keys (MetricCollector._metrics this')
    = JS.Map_keys (MetricCollector._metrics this)
      ++ (if existsb (String.eqb key) (JS.Map_keys (MetricCollector._metrics this))
          then [] else [key]) /\
    (keyed (MetricCollector._metrics this) -> keyed (MetricCollector._metrics this')).
Proof.
  intros Hk. unfold MetricCollector.addMetric. rewrite Hk.
  destruct (JS.Map_get key (MetricCollector._metrics this)) as [stored |] eqn:Hget.
  - eexists. split; [reflexivity |]. cbn [MetricCollector._metrics MetricCollector.with_metrics].
    split.
    + rewrite Map_keys_set_old by congruence.
      destruct (existsb _ _) eqn:Hex; [now rewrite app_nil_r |].
      apply Map_get_keys in Hex. congruence.
    + intros Hkeyed. apply Map_set_Forall; [| exact Hkeyed].
      apply Map_get_In in Hget.
      unfold keyed in Hkeyed. rewrite Forall_forall in Hkeyed.
      exact (Hkeyed _ Hget).
  - eexists. split; [reflexivity |]. cbn [MetricCollector._metrics MetricCollector.with_metrics].
    rewrite (Map_set_new _ _ _ Hget). split.
    + apply Map_get_keys in Hget. rewrite Hget.
      unfold JS.Map_keys. now rewrite map_app.
    + intros Hkeyed. apply Forall_app. split; [exact Hkeyed |].
      constructor; [exact Hk | constructor].
Qed.

Lemma forEach_keys (observations : list (metric V)) (keys : list string) :
  Forall2 (fun o k => MetricCollector._getMetricKey o = JS.Normal k) observations keys ->
  forall this : MetricCollector.t (V := V),
  exists this',
    JS.forEach MetricCollector.addMetric observations this = (this', JS.Normal tt) /\
    JS.Map_keys (MetricCollector._metrics this')
    = JS.Map_keys (MetricCollector._metrics this)
      ++ first_seen (JS.Map_keys (MetricCollector._metrics this)) keys /\
    (keyed (MetricCollector._metrics this) -> keyed (MetricCollector._metrics this')).
Proof.
  induction 1 as [| o k observations keys Ho Hrest IH]; intros this.
  - exists this. cbn. now rewrite app_nil_r.
  - destruct (addMetric_keys o this k Ho) as (this1 & Hstep & Hkeys1 & Hkeyed1).
    destruct (IH this1) as (this' & Hrun & Hkeys' & Hkeyed').
    exists this'. cbn [JS.forEach]. rewrite Hstep. split; [exact Hrun |]. split.
    + rewrite Hkeys', Hkeys1. cbn [first_seen].
      destruct (existsb _ _); [now rewrite !app_nil_r |].
      now rewrite <- app_assoc.
    + auto.
Qed.

(** C10: [getMetrics()] lists the records in the order in which their keys
    were first put in the map: after [addMetrics], the records that were
    there stand where they stood, under the same key, and the records of
    the new keys follow, each key where it came first among the
    observations. *)
Theorem getMetrics_keeps_insertion_order
  (this : MetricCollector.t (V := V)) (observations : list (metric V))
  (keys : list string)
  (Hkeys : Forall2 (fun o k => MetricCollector._getMetricKey o = JS.Normal k)
                   observations keys)
  (Hkeyed : keyed (MetricCollector._metrics this)) :
  let old := JS.Map_keys (MetricCollector._metrics this) in
  exists this',
    MetricCollector.addMetrics this (Some (JS.Many observations)) = (this', JS.Normal tt) /\
    map MetricCollector._getMetricKey (MetricCollector.getMetrics this')
    = map JS.Normal (old ++ first_seen old keys) /\
    (forall i record,
        nth_error (MetricCollector.getMetrics this) i = Some record ->
        exists record',
          nth_error (MetricCollector.getMetrics this') i = Some record' /\
          MetricCollector._getMetricKey record' = MetricCollector._getMetricKey record).
Proof.
  intros old.
  destruct (forEach_keys observations keys Hkeys this) as (this' & Hrun & Hk & Hkeyed').
  exists this'. split; [exact Hrun |].
  assert (Horder :
    map MetricCollector._getMetricKey (MetricCollector.getMetrics this')
    = map JS.Normal (old ++ first_seen old keys)).
  { unfold MetricCollector.getMetrics. rewrite (keyed_keys _ (Hkeyed' Hkeyed)).
    now rewrite Hk. }
  split; [exact Horder |].
  intros i record Hi.
  assert (Hlt : i < length old).
  { unfold old, JS.Map_keys. rewrite length_map, <- (length_map snd).
    apply nth_error_Some. unfold MetricCollector.getMetrics, JS.Map_values in Hi.
    congruence. }
  pose proof (f_equal (fun l => nth_error l i) Horder) as Hnth. cbn beta in Hnth.
  rewrite map_app, nth_error_app1 in Hnth by (now rewrite length_map).
  unfold old in Hnth. rewrite <- (keyed_keys _ Hkeyed) in Hnth.
  fold (MetricCollector.getMetrics this) in Hnth.
  rewrite !nth_error_map, Hi in Hnth. cbn in Hnth.
  destruct (nth_error (MetricCollector.getMetrics this') i) as [record' |];
    [| discriminate].
  exists record'. split; [reflexivity |]. cbn in Hnth. congruence.
Qed.

End Order.

(** ** The theorems at work *)

(** The record of one [eventCount] observation goes out as statistics of
    one sample. *)
Lemma record_is_sent_as_statistics_witness :
  exists e,
    CloudWatchDriver.wireEntry
      (MetricCollector.rawMetric (assign_value (Sample.eventCount 1) [1%Z]))
    = JS.Normal e /\
    MetricDatum.Value e = None /\
    MetricDatum.StatisticValues e = Some (StatisticSet.mk 1%Z 1%Z 1 1%Z).
Proof.
  exact (proj1 (record_is_sent_as_statistics
                  (assign_value (Sample.eventCount 1) [1%Z]) 1%Z [] eq_refl)).
Defined.

(** Against C1 as the specification words it: one observation
    [{ name: 'eventCount', dimensions: { eventName: 'X' }, value: 1 }] is
    kept as a record with the one-element value [[1]], and the wire entry
    of that record has no [Value] and has [StatisticValues]. *)
Lemma single_sample_record_has_no_Value :
  MetricCollector.getMetrics
    (fst (MetricCollector.addMetrics (Sample.manual Sample.accepting)
                                     (Some (JS.One (Sample.eventCount 1)))))
  = [assign_value (Sample.eventCount 1) [1%Z]] /\
  exists e,
    CloudWatchDriver.wireEntry
      (MetricCollector.rawMetric (assign_value (Sample.eventCount 1) [1%Z]))
    = JS.Normal e /\
    MetricDatum.Value e <> Some 1%Z /\
    MetricDatum.StatisticValues e <> None.
Proof.
  split; [reflexivity |].
  eexists. split; [reflexivity |]. split; discriminate.
Qed.

(** Three observations of one identity, in two calls. *)
Lemma same_identity_merges_into_one_record_witness :
  exists this',
    addMetrics_in_turn (Sample.manual Sample.accepting)
      [JS.One (Sample.eventCount 1);
       JS.Many [Sample.eventCount_other 5; Sample.eventCount 7]]
    = (this', JS.Normal tt) /\
    MetricCollector.getMetrics this'
    = [assign_value (Sample.eventCount 1) [1; 5; 7]%Z].
Proof.
  destruct (same_identity_merges_into_one_record
              (Sample.manual Sample.accepting)
              [JS.One (Sample.eventCount 1);
               JS.Many [Sample.eventCount_other 5; Sample.eventCount 7]]
              "eventCount" [Some "X"]
              (Sample.eventCount 1)
              [Sample.eventCount_other 5; Sample.eventCount 7]
              eq_refl
              ltac:(repeat constructor)
              eq_refl)
    as (this' & Hrun & Hget & _).
  exists this'. split; [exact Hrun | exact Hget].
Defined.

(** 41 records and a transport that takes them all: three calls. *)
Lemma sendMetrics_one_call_per_chunk_witness :
  exists w',
    CloudWatchDriver.sendMetrics (Sample.driver Sample.accepting)
                                 (JS.Many (Sample.numbered 41)) Sample.nothing_yet
    = (w', Resolved) /\
    length (puts w') = 3.
Proof.
  destruct (sendMetrics_one_call_per_chunk
              (Sample.driver Sample.accepting) (Sample.numbered 41)
              (Sample.numbered_entries 41) Sample.nothing_yet
              eq_refl eq_refl)
    as (w' & Hrun & Hputs & Hlen & _).
  exists w'. split; [exact Hrun |].
  rewrite Hputs, length_app, length_map, Hlen. reflexivity.
Defined.

(** Against C3 as the specification words it: of the three calls for 41
    records the second carries the remainder, one entry, which is the
    last record, and the third carries records 20 to 39. *)
Lemma third_chunk_is_sent_second :
  map (fun metrics => length (MetricData metrics))
      (puts (fst (CloudWatchDriver.sendMetrics (Sample.driver Sample.accepting)
                    (JS.Many (Sample.numbered 41)) Sample.nothing_yet)))
  = [20; 1; 20] /\
  map (fun metrics => map MetricDatum.Value (firstn 1 (MetricData metrics)))
      (puts (fst (CloudWatchDriver.sendMetrics (Sample.driver Sample.accepting)
                    (JS.Many (Sample.numbered 41)) Sample.nothing_yet)))
  = [[Some 0%Z]; [Some 40%Z]; [Some 20%Z]].
Proof. split; vm_compute; reflexivity. Qed.

(** A collector with nothing accumulated. *)
Lemma flush_of_nothing_skips_transport_witness :
  snd (MetricCollector.flush (Sample.manual Sample.accepting) Sample.nothing_yet)
  = BPromise_resolve.
Proof.
  exact (proj1 (flush_of_nothing_skips_transport
                  (Sample.manual Sample.accepting) Sample.nothing_yet eq_refl)).
Defined.

(** A flush of one record that the transport rejects: the map is empty
    all the same. *)
Lemma flush_clears_before_sending_witness :
  MetricCollector.getMetrics
    (fst (fst (MetricCollector.flush
                 (fst (MetricCollector.addMetrics
                         (Sample.manual (Sample.rejecting_call 0))
                         (Some (JS.One (Sample.eventCount 1)))))
                 Sample.nothing_yet))) = [] /\
  snd (snd (MetricCollector.flush
              (fst (MetricCollector.addMetrics
                      (Sample.manual (Sample.rejecting_call 0))
                      (Some (JS.One (Sample.eventCount 1)))))
              Sample.nothing_yet) Sample.nothing_yet)
  = Rejected (Failed (mkError "Throttling" true)).
Proof.
  split; [| vm_compute; reflexivity].
  exact (proj1 (proj2 (flush_clears_before_sending
                         (fst (MetricCollector.addMetrics
                                 (Sample.manual (Sample.rejecting_call 0))
                                 (Some (JS.One (Sample.eventCount 1)))))
                         Sample.nothing_yet))).
Defined.

(** A running collector is stopped by one flush, its timer cleared; a
    collector made without [auto] is stopped from the start. *)
Lemma stop_is_idempotent_witness :
  timers (snd (fst (MetricCollector.stop (Sample.automatic Sample.accepting)
                                         Sample.timer_armed))) = [] /\
  MetricCollector.stop (Sample.manual Sample.accepting) Sample.nothing_yet
  = (Sample.manual Sample.accepting, Sample.nothing_yet, BPromise_resolve).
Proof.
  split.
  - refine (proj2 (proj2 (proj2
      (proj1 (proj2 (stop_is_idempotent Sample.accepting
                       (Sample.automatic Sample.accepting) Sample.timer_armed))
             eq_refl))) _).
    intros t [<- | []]. reflexivity.
  - exact (proj1 (stop_is_idempotent Sample.accepting
                    (Sample.manual Sample.accepting) Sample.nothing_yet) eq_refl).
Defined.

(** A constructor call without [serviceNamespace]. *)
Lemma missing_arguments_are_refused_witness :
  MetricCollector.new Sample.accepting (Options.mk None None None None None)
                      Sample.nothing_yet
  = JS.Throw (JS.AssertionError "missing options.serviceNamespace").
Proof.
  exact (proj2 (proj2 (missing_arguments_are_refused Sample.accepting
                         (Sample.manual Sample.accepting)
                         (Options.mk None None None None None)
                         Sample.nothing_yet))
               eq_refl).
Defined.

(** Against C7 as the specification words it: [addMetrics([])] does not
    throw. *)
Lemma empty_array_is_accepted :
  MetricCollector.addMetrics (Sample.manual Sample.accepting) (Some (JS.Many []))
  = (Sample.manual Sample.accepting, JS.Normal tt) /\
  forall e,
    snd (MetricCollector.addMetrics (Sample.manual Sample.accepting) (Some (JS.Many [])))
    <> JS.Throw e.
Proof. split; [reflexivity | discriminate]. Qed.

(** 41 records and a transport that rejects the second call: the chunk of
    records 20 to 39, third in the queue, is never sent. *)
Lemma transport_failure_ends_submit_witness :
  exists w',
    CloudWatchDriver.sendMetrics (Sample.driver (Sample.rejecting_call 1))
                                 (JS.Many (Sample.numbered 41)) Sample.nothing_yet
    = (w', Rejected (Failed (mkError "Throttling" true))) /\
    map (fun metrics => length (MetricData metrics)) (puts w') = [20; 1] /\
    length (error_lines w') = 1.
Proof.
  destruct (transport_failure_ends_submit
              (Sample.driver (Sample.rejecting_call 1))
              (JS.Many (Sample.numbered 41)) Sample.nothing_yet
              [firstn 20 (Sample.numbered 41)]
              [firstn 20 (skipn 20 (Sample.numbered 41))]
              (skipn 40 (Sample.numbered 41))
              [firstn 20 (Sample.numbered_entries 41)]
              (skipn 40 (Sample.numbered_entries 41))
              (mkError "Throttling" false)
              eq_refl
              ltac:(repeat constructor)
              eq_refl eq_refl eq_refl)
    as (w' & Hrun & _ & _ & Hputs & Herr & _).
  exists w'. split; [exact Hrun |]. split.
  - rewrite Hputs. reflexivity.
  - rewrite Herr. reflexivity.
Defined.

(** A collector that holds a record of [processingTime] is given
    observations of [eventCount], [processingTime], [eventCount]: the old
    record stays first, the new key follows. *)
Lemma getMetrics_keeps_insertion_order_witness :
  exists this',
    MetricCollector.addMetrics
      (fst (MetricCollector.addMetrics (Sample.manual Sample.accepting)
              (Some (JS.One (Sample.processingTime 123)))))
      (Some (JS.Many [Sample.eventCount 1; Sample.processingTime 7; Sample.eventCount 2]))
    = (this', JS.Normal tt) /\
    map MetricCollector._getMetricKey (MetricCollector.getMetrics this')
    = [JS.Normal "processingTime:X"; JS.Normal "eventCount:X"].
Proof.
  destruct (getMetrics_keeps_insertion_order
              (fst (MetricCollector.addMetrics (Sample.manual Sample.accepting)
                      (Some (JS.One (Sample.processingTime 123)))))
              [Sample.eventCount 1; Sample.processingTime 7; Sample.eventCount 2]
              ["eventCount:X"; "processingTime:X"; "eventCount:X"]
              ltac:(repeat constructor)
              ltac:(repeat constructor))
    as (this' & Hrun & Horder & _).
  exists this'. split; [exact Hrun | exact Horder].
Defined.

(** * Further properties *)

(** ** What a submit does, whatever the transport answers *)

Section SubmitTrace.
Context {V : Type} `{JsArith V}.
Variable this : CloudWatchDriver.t (V := V).

Lemma sendBatch_thrown metricsBatch e (w : world V) :
  JS.map_throw CloudWatchDriver.wireEntry metricsBatch = JS.Throw e ->
  CloudWatchDriver.sendBatch this metricsBatch w = (w, Rejected (Thrown e)).
Proof. intros He. unfold CloudWatchDriver.sendBatch. now rewrite He. Qed.

(** How a run over the queue ends: the batches sent, each the encoding of
    a chunk of the queue, and the one error line, when the transport
    rejected the last of them. *)
Lemma run_queue_trace (queue : list (list (metric (metric_value V)))) :
  forall (w w' : world V) out,
    run_queue (CloudWatchDriver.sendBatch this) queue w = (w', out) ->
    exists sent,
      length sent <= length queue /\
      Forall (fun metrics =>
                Namespace metrics = CloudWatchDriver.serviceNamespace this /\
                exists c, In c queue /\
                          JS.map_throw CloudWatchDriver.wireEntry c
                          = JS.Normal (MetricData metrics)) sent /\
      match out with
      | Rejected (Failed err) =>
          exists raised metrics sent0,
            sent = sent0 ++ [metrics] /\ err = set_logged raised /\
            CloudWatchDriver.client this (puts w ++ sent0) metrics = Some raised /\
            w' = log (LogError raised metrics "failed to send metrics")
                     (after_sending (CloudWatchDriver.logger this) sent w)
      | _ => w' = after_sending (CloudWatchDriver.logger this) sent w
      end.
Proof.
  induction queue as [| c queue IH]; intros w w' out Hrun.
  - cbn in Hrun. injection Hrun as <- <-. exists []. cbn [length].
    split; [lia |]. split; [constructor |]. now rewrite after_sending_nil.
  - cbn [run_queue] in Hrun.
    destruct (JS.map_throw CloudWatchDriver.wireEntry c) as [es | e] eqn:Hc.
    + destruct (CloudWatchDriver.client this (puts w) (batch_of this es)) as [raised |] eqn:Hcl.
      * rewrite (sendBatch_rejected this _ _ _ _ Hc Hcl) in Hrun.
        injection Hrun as <- <-. exists [batch_of this es]. cbn [length].
        split; [lia |]. split.
        -- constructor; [| constructor]. split; [reflexivity |].
           exists c. split; [now left | exact Hc].
        -- exists raised, (batch_of this es), []. rewrite app_nil_r. now repeat split.
      * rewrite (sendBatch_fulfilled this _ _ _ Hc Hcl) in Hrun.
        destruct (IH _ _ _ Hrun) as (sent & Hlen & Hall & Hout).
        exists (batch_of this es :: sent). cbn [length]. split; [lia |]. split.
        -- constructor.
           ++ split; [reflexivity |]. exists c. split; [now left | exact Hc].
           ++ eapply Forall_impl; [| exact Hall].
              intros b (Hns & c' & Hin & Henc). split; [exact Hns |].
              exists c'. split; [now right | exact Henc].
        -- rewrite (after_sending_cons _ (batch_of this es) sent).
           destruct out as [| [e | err]]; try exact Hout.
           destruct Hout as (raised & metrics & sent0 & -> & -> & Hrej & ->).
           exists raised, metrics, (batch_of this es :: sent0).
           repeat split. cbn [puts after_sending app] in Hrej.
           now rewrite <- app_assoc in Hrej.
    + rewrite (sendBatch_thrown _ _ _ Hc) in Hrun. injection Hrun as <- <-.
      exists []. cbn [length]. split; [lia |]. split; [constructor |].
      now rewrite after_sending_nil.
Qed.

Lemma pieces_bounds {A} (n : nat) (l : list A) :
  Forall (fun c => 1 <= length c <= S n) (pieces n l).
Proof.
  induction l as [| x xs IH] using (pieces_ind n); simp pieces; constructor.
  - cbn [length]. rewrite length_firstn. lia.
  - exact IH.
Qed.

Lemma In_map_order {A} (x : A) (l : list A) : In x (map_order l) -> In x l.
Proof.
  destruct l as [| a l]; cbn; [tauto |].
  intros [-> | Hin]; [now left | right; now apply in_rev].
Qed.

(** X1: whatever the transport answers and however the submit ends,
    every batch it hands to the transport carries the driver's namespace
    and between 1 and 20 entries; there are at most ceil(N/20) of them for
    N raw metrics; and the submit leaves the timers alone. *)
Theorem every_call_is_within_the_limit
  (rawMetrics : JS.one_or_many (metric (metric_value V))) (w : world V) :
  exists sent,
    puts (fst (CloudWatchDriver.sendMetrics this rawMetrics w)) = puts w ++ sent /\
    length sent <= (length (JS.concat rawMetrics) + 19) / 20 /\
    Forall (fun metrics =>
              Namespace metrics = CloudWatchDriver.serviceNamespace this /\
              1 <= length (MetricData metrics) <= CloudWatchDriver.METRIC_COUNT_LIMIT)
           sent /\
    timers (fst (CloudWatchDriver.sendMetrics this rawMetrics w)) = timers w.
Proof.
  unfold CloudWatchDriver.sendMetrics, BPromise_map.
  destruct (run_queue _ _ w) as [w' out] eqn:Hrun.
  destruct (run_queue_trace _ _ _ _ Hrun) as (sent & Hlen & Hall & Hout).
  exists sent. cbn [fst].
  assert (Hw : puts w' = puts w ++ sent /\ timers w' = timers w).
  { destruct out as [| [e | err]]; try (subst w'; split; reflexivity).
    destruct Hout as (raised & metrics & sent0 & _ & _ & _ & ->). split; reflexivity. }
  split; [apply Hw |]. split; [| split; [| apply Hw]].
  - rewrite length_map_order in Hlen.
    change (chunk (JS.concat rawMetrics) CloudWatchDriver.METRIC_COUNT_LIMIT)
      with (pieces 19 (JS.concat rawMetrics)) in Hlen.
    now rewrite length_pieces in Hlen.
  - eapply Forall_impl; [| exact Hall].
    intros b (Hns & c & Hin & Henc). split; [exact Hns |].
    rewrite (map_throw_length _ _ _ Henc).
    apply In_map_order in Hin.
    pose proof (pieces_bounds 19 (JS.concat rawMetrics)) as Hb.
    rewrite Forall_forall in Hb. exact (Hb c Hin).
Qed.

(** X2: however a submit ends, it writes at most one error line, and only
    for a rejection of the transport: then the error it is rejected with
    is the one the transport raised for the last batch handed over, marked
    [_logged], and the line holds that error and that batch.  A submit
    that is fulfilled, or rejected by an exception of the encoding, writes
    no error line.  The other lines are the debug lines of the batches
    handed over. *)
Theorem submit_logs_only_the_transport_error
  (rawMetrics : JS.one_or_many (metric (metric_value V))) (w : world V) :
  exists sent,
    puts (fst (CloudWatchDriver.sendMetrics this rawMetrics w)) = puts w ++ sent /\
    match snd (CloudWatchDriver.sendMetrics this rawMetrics w) with
    | Rejected (Failed err) =>
        exists raised metrics sent0,
          sent = sent0 ++ [metrics] /\
          err = set_logged raised /\
          CloudWatchDriver.client this (puts w ++ sent0) metrics = Some raised /\
          logs (fst (CloudWatchDriver.sendMetrics this rawMetrics w))
          = logs w ++ debug_lines (CloudWatchDriver.logger this) sent
                   ++ [LogError raised metrics "failed to send metrics"]
    | _ =>
        logs (fst (CloudWatchDriver.sendMetrics this rawMetrics w))
        = logs w ++ debug_lines (CloudWatchDriver.logger this) sent
    end.
Proof.
  unfold CloudWatchDriver.sendMetrics, BPromise_map.
  destruct (run_queue _ _ w) as [w' out] eqn:Hrun.
  destruct (run_queue_trace _ _ _ _ Hrun) as (sent & _ & _ & Hout).
  exists sent. cbn [fst snd].
  destruct out as [| [e | err]]; try (subst w'; split; reflexivity).
  destruct Hout as (raised & metrics & sent0 & -> & -> & Hrej & ->).
  split; [reflexivity |].
  exists raised, metrics, sent0. repeat split; [exact Hrej |].
  cbn. now rewrite <- app_assoc.
Qed.

End SubmitTrace.

(** ** The encoding of one metric, field by field *)

Section Encoding.
Context {V : Type} `{JsArith V}.

(** X3: encoding a raw metric throws in one case only, an empty array of
    samples, and then the [TypeError] of [reduce]; every other raw metric
    has a wire entry. *)
Theorem wireEntry_throws_only_without_samples (m : metric (metric_value V)) :
  (m_value m = Samples [] /\
   CloudWatchDriver.wireEntry m
   = JS.Throw (JS.TypeError "Reduce of empty array with no initial value")) \/
  (m_value m <> Samples [] /\ exists e, CloudWatchDriver.wireEntry m = JS.Normal e).
Proof.
  unfold CloudWatchDriver.wireEntry.
  destruct (m_value m) as [x | [| v vs]].
  - right. split; [discriminate | eexists; reflexivity].
  - left. split; reflexivity.
  - right. split; [discriminate |]. rewrite statisticValues_cons. eexists; reflexivity.
Qed.

(** X4: the driver reads [unit] and never [units]: the wire entry of a raw
    metric does not change with its [units], and its [Unit] is the [unit]
    of the metric when that is a non-empty string and is left out
    otherwise.  [MetricName] is the name of the metric, and [Timestamp]
    its timestamp when that is truthy, a [Date] or a number other than 0,
    and is left out otherwise. *)
Theorem units_never_reach_the_wire (m : metric (metric_value V)) (u : option string) :
  CloudWatchDriver.wireEntry
    (mkMetric (m_name m) (m_dimensions m) (m_value m) (m_unit m) u (m_timestamp m))
  = CloudWatchDriver.wireEntry m /\
  match CloudWatchDriver.wireEntry m with
  | JS.Normal e =>
      MetricDatum.MetricName e = m_name m /\
      MetricDatum.Timestamp e
      = match m_timestamp m with
        | Some (Number 0%Z) | None => None
        | Some given => Some given
        end /\
      MetricDatum.Unit e
      = match m_unit m with
        | Some ""%string | None => None
        | Some given => Some given
        end
  | JS.Throw _ => True
  end.
Proof.
  split; [reflexivity |].
  assert (Htime : (if truthy_time (m_timestamp m) then m_timestamp m else None)
                  = match m_timestamp m with
                    | Some (Number 0%Z) | None => None
                    | Some given => Some given
                    end).
  { destruct (m_timestamp m) as [[time | [| p | p]] |]; reflexivity. }
  assert (Hunit : (if JS.truthy_string (m_unit m) then m_unit m else None)
                  = match m_unit m with
                    | Some ""%string | None => None
                    | Some given => Some given
                    end).
  { destruct (m_unit m) as [[| c s] |]; reflexivity. }
  unfold CloudWatchDriver.wireEntry.
  destruct (m_value m) as [x | value].
  - cbn [MetricDatum.MetricName MetricDatum.Timestamp MetricDatum.Unit].
    split; [reflexivity |]. split; [exact Htime | exact Hunit].
  - destruct (CloudWatchDriver.statisticValues value); [| exact I].
    cbn [MetricDatum.MetricName MetricDatum.Timestamp MetricDatum.Unit].
    split; [reflexivity |]. split; [exact Htime | exact Hunit].
Qed.

Lemma get_first {A} (k : string) (v : A) (o : JS.object A) :
  JS.get ((k, v) :: o) k = Some v.
Proof. cbn. now rewrite String.eqb_refl. Qed.

Lemma map_get_keys {A} (o : JS.object A) :
  NoDup (JS.Object_keys o) ->
  map (fun k => (k, JS.get o k)) (JS.Object_keys o)
  = map (fun entry => (fst entry, Some (snd entry))) o.
Proof.
  unfold JS.Object_keys. induction o as [| [k v] o IH]; intros Hnd; [reflexivity |].
  cbn [map fst snd] in *. inversion Hnd as [| ? ? Hk Ho]; subst.
  rewrite get_first. f_equal. rewrite <- (IH Ho).
  apply map_ext_in. intros k' Hin. cbn [JS.get].
  destruct (String.eqb k k') eqn:Hkk; [| reflexivity].
  apply String.eqb_eq in Hkk. subst. contradiction.
Qed.

(** X5: the [Dimensions] of a wire entry are the dimensions of the metric,
    name by name and value by value in the order of the object, none
    dropped and none [undefined]; a metric without [dimensions] has the
    empty list. *)
Theorem dimensions_are_listed_in_order
  (m : metric (metric_value V)) (e : MetricDatum.t V)
  (Hentry : CloudWatchDriver.wireEntry m = JS.Normal e)
  (Hkeys : match m_dimensions m with
           | Some dimensions => NoDup (JS.Object_keys dimensions)
           | None => True
           end) :
  map (fun d => (Dimension.Name d, Dimension.Value d)) (MetricDatum.Dimensions e)
  = match m_dimensions m with
    | Some dimensions => map (fun entry => (fst entry, Some (snd entry))) dimensions
    | None => []
    end.
Proof.
  assert (Hd : MetricDatum.Dimensions e
               = map (fun Name => Dimension.mk Name
                        (JS.get (match m_dimensions m with Some d => d | None => [] end) Name))
                     (JS.Object_keys (match m_dimensions m with Some d => d | None => [] end))).
  { unfold CloudWatchDriver.wireEntry in Hentry.
    destruct (m_value m) as [x | value].
    - now injection Hentry as <-.
    - destruct (CloudWatchDriver.statisticValues value); [| discriminate].
      now injection Hentry as <-. }
  rewrite Hd, map_map. cbn [Dimension.Name Dimension.Value].
  destruct (m_dimensions m) as [dimensions |]; [| reflexivity].
  now apply map_get_keys.
Qed.

End Encoding.

(** ** Submits of a few records, and of records that do not encode *)

Section SmallSubmit.
Context {V : Type} `{JsArith V}.
Variable this : CloudWatchDriver.t (V := V).

Lemma pieces_one {A} (n : nat) (x : A) (xs : list A) :
  length xs <= n -> pieces n (x :: xs) = [x :: xs].
Proof.
  intros Hlen. simp pieces.
  rewrite (firstn_all2 (n := n) xs Hlen), (skipn_all2 (n := n) xs Hlen).
  now simp pieces.
Qed.

(** X6: up to 20 raw metrics that encode go out in exactly one call, with
    all their entries in their order, and the submit ends as that call
    does: fulfilled, or rejected with the error of the transport marked
    [_logged]. *)
Theorem up_to_twenty_go_in_one_call
  (records : list (metric (metric_value V))) (entries : list (MetricDatum.t V))
  (w : world V)
  (Hsome : 1 <= length records)
  (Hlimit : length records <= CloudWatchDriver.METRIC_COUNT_LIMIT)
  (Hencoded : JS.map_throw CloudWatchDriver.wireEntry records = JS.Normal entries) :
  puts (fst (CloudWatchDriver.sendMetrics this (JS.Many records) w))
  = puts w ++ [batch_of this entries] /\
  snd (CloudWatchDriver.sendMetrics this (JS.Many records) w)
  = match CloudWatchDriver.client this (puts w) (batch_of this entries) with
    | None => Resolved
    | Some err => Rejected (Failed (set_logged err))
    end.
Proof.
  unfold CloudWatchDriver.sendMetrics, BPromise_map. cbn [JS.concat].
  change (chunk records CloudWatchDriver.METRIC_COUNT_LIMIT) with (pieces 19 records).
  destruct records as [| x xs]; [cbn in Hsome; lia |].
  rewrite pieces_one by (cbn in Hlimit; unfold CloudWatchDriver.METRIC_COUNT_LIMIT in Hlimit; lia).
  cbn [map_order rev run_queue].
  destruct (CloudWatchDriver.client this (puts w) (batch_of this entries)) as [err |] eqn:Hcl.
  - rewrite (sendBatch_rejected this _ _ _ _ Hencoded Hcl). split; reflexivity.
  - rewrite (sendBatch_fulfilled this _ _ _ Hencoded Hcl). split; reflexivity.
Qed.

Lemma map_order_short {A} (l : list A) : length l <= 2 -> map_order l = l.
Proof.
  destruct l as [| a [| b [| c l]]]; cbn; try reflexivity. lia.
Qed.

(** X7: up to 40 raw metrics that encode, with a transport that fulfils
    the calls, reach the transport in their order across the calls too:
    the chunks go out first to last, and the entries of the calls, put
    end to end, are the entries of the raw metrics. *)
Theorem up_to_forty_go_in_order
  (records : list (metric (metric_value V))) (entries : list (MetricDatum.t V))
  (w : world V)
  (Hlimit : length records <= 40)
  (Hencoded : JS.map_throw CloudWatchDriver.wireEntry records = JS.Normal entries)
  (Hfulfils : fulfils (CloudWatchDriver.client this) (puts w)
                (map (batch_of this) (chunk entries CloudWatchDriver.METRIC_COUNT_LIMIT))
              = true) :
  exists sent,
    CloudWatchDriver.sendMetrics this (JS.Many records) w
    = (after_sending (CloudWatchDriver.logger this) sent w, Resolved) /\
    sent = map (batch_of this) (chunk entries CloudWatchDriver.METRIC_COUNT_LIMIT) /\
    concat (map MetricData sent) = entries.
Proof.
  eexists. split; [| split; [reflexivity |]].
  - unfold CloudWatchDriver.sendMetrics, BPromise_map. cbn [JS.concat].
    change (chunk records CloudWatchDriver.METRIC_COUNT_LIMIT) with (pieces 19 records).
    rewrite map_order_short.
    + pose proof (map_throw_pieces CloudWatchDriver.wireEntry 19 _ _ Hencoded) as Hq.
      rewrite <- (app_nil_r (pieces 19 records)).
      rewrite (run_queue_sent this _ _ Hq [] w Hfulfils). reflexivity.
    + rewrite length_pieces.
      apply Nat.lt_succ_r, Nat.Div0.div_lt_upper_bound. lia.
  - rewrite map_map. cbn [MetricData batch_of]. rewrite map_id.
    apply concat_pieces.
Qed.

(** X8: when a chunk does not encode, its turn ends the submit: the
    promise is rejected with the exception, that chunk and the chunks
    still queued are not handed to the transport, and no error line is
    written. *)
Theorem encoding_error_ends_submit
  (rawMetrics : JS.one_or_many (metric (metric_value V))) (w : world V)
  (before after : list (list (metric (metric_value V))))
  (failing : list (metric (metric_value V)))
  (sent : list (list (MetricDatum.t V))) (e : JS.exn)
  (Hqueue : map_order (chunk (JS.concat rawMetrics) CloudWatchDriver.METRIC_COUNT_LIMIT)
            = before ++ failing :: after)
  (Hbefore : Forall2 (fun c es => JS.map_throw CloudWatchDriver.wireEntry c = JS.Normal es)
                     before sent)
  (Hfulfilled : fulfils (CloudWatchDriver.client this) (puts w)
                        (map (batch_of this) sent) = true)
  (Hfailing : JS.map_throw CloudWatchDriver.wireEntry failing = JS.Throw e) :
  CloudWatchDriver.sendMetrics this rawMetrics w
  = (after_sending (CloudWatchDriver.logger this) (map (batch_of this) sent) w,
     Rejected (Thrown e)) /\
  puts (fst (CloudWatchDriver.sendMetrics this rawMetrics w))
  = puts w ++ map (batch_of this) sent /\
  error_lines (fst (CloudWatchDriver.sendMetrics this rawMetrics w)) = error_lines w.
Proof.
  assert (Hsend :
    CloudWatchDriver.sendMetrics this rawMetrics w
    = (after_sending (CloudWatchDriver.logger this) (map (batch_of this) sent) w,
       Rejected (Thrown e))).
  { unfold CloudWatchDriver.sendMetrics, BPromise_map. rewrite Hqueue.
    rewrite (run_queue_sent this _ _ Hbefore _ w Hfulfilled).
    cbn [run_queue]. now rewrite (sendBatch_thrown this _ _ _ Hfailing). }
  rewrite Hsend. split; [reflexivity |]. split; [reflexivity |].
  unfold error_lines. cbn. rewrite filter_app, error_lines_debug. now rewrite app_nil_r.
Qed.

End SmallSubmit.

(** ** What [addMetrics] keeps *)

Section MapMore.
Context {A : Type}.

Lemma Map_get_set_same (k : string) (v : A) (m : JS.Map A) :
  JS.Map_get k (JS.Map_set k v m) = Some v.
Proof.
  induction m as [| [k' v'] m IH]; cbn.
  - now rewrite String.eqb_refl.
  - destruct (String.eqb k' k) eqn:Hk; cbn; rewrite Hk; [reflexivity | exact IH].
Qed.

Lemma Map_get_set_other (k other : string) (v : A) (m : JS.Map A) :
  other <> k -> JS.Map_get other (JS.Map_set k v m) = JS.Map_get other m.
Proof.
  intros Hne. induction m as [| [k' v'] m IH]; cbn.
  - destruct (String.eqb k other) eqn:Hk; [| reflexivity].
    apply String.eqb_eq in Hk. congruence.
  - destruct (String.eqb k' k) eqn:Hk; cbn.
    + apply String.eqb_eq in Hk as ->.
      assert (Hf : String.eqb k other = false) by (apply String.eqb_neq; congruence).
      now rewrite Hf.
    + now rewrite IH.
Qed.

Lemma Map_set_pointwise (R : string * A -> string * A -> Prop)
  (k : string) (stored v : A) (m : JS.Map A) :
  (forall x, R x x) -> R (k, stored) (k, v) ->
  JS.Map_get k m = Some stored -> Forall2 R m (JS.Map_set k v m).
Proof.
  intros Hrefl Hkv. induction m as [| [k' v'] m IH]; cbn; [discriminate |].
  destruct (String.eqb k' k) eqn:Hk.
  - apply String.eqb_eq in Hk as ->. intros [= ->].
    constructor; [exact Hkv |]. clear -Hrefl. induction m; constructor; auto.
  - intros Hget. constructor; [apply Hrefl | now apply IH].
Qed.

Lemma Forall2_trans {B} (R : B -> B -> Prop) :
  (forall x y z, R x y -> R y z -> R x z) ->
  forall l1 l2 l3, Forall2 R l1 l2 -> Forall2 R l2 l3 -> Forall2 R l1 l3.
Proof.
  intros Htrans l1 l2 l3 H12. revert l3.
  induction H12 as [| x y l1 l2 Hxy H12 IH]; intros l3 H23; inversion H23; subst.
  - constructor.
  - constructor; [eauto | now apply IH].
Qed.

Lemma forEach_invariant {S} (P : S -> Prop) (f : A -> S -> S * JS.completion unit) :
  (forall x s, P s -> P (fst (f x s))) ->
  forall l s, P s -> P (fst (JS.forEach f l s)).
Proof.
  intros Hf. induction l as [| x l IH]; intros s Hs; [exact Hs |].
  cbn [JS.forEach]. specialize (Hf x s Hs).
  destruct (f x s) as [s' [[] | e]]; cbn [fst] in *; [now apply IH | exact Hf].
Qed.

End MapMore.

Section Keeping.
Context {V : Type} `{JsArith V}.

Lemma grown_from_refl {Val} (record : metric (list Val)) : grown_from record record.
Proof. repeat split. exists []. now rewrite app_nil_r. Qed.

Lemma grown_from_trans {Val} (a b c : metric (list Val)) :
  grown_from a b -> grown_from b c -> grown_from a c.
Proof.
  intros (? & ? & ? & ? & ? & more1 & ?) (? & ? & ? & ? & ? & more2 & ?).
  repeat split; try congruence.
  exists (more1 ++ more2). rewrite app_assoc. congruence.
Qed.

Lemma entry_grown_refl (x : string * metric (list V)) : entry_grown x x.
Proof. split; [reflexivity | apply grown_from_refl]. Qed.

Lemma map_grown_refl (m : JS.Map (metric (list V))) : map_grown m m.
Proof.
  exists m, []. rewrite app_nil_r. split; [reflexivity |].
  induction m; constructor; auto using entry_grown_refl.
Qed.

Lemma map_grown_trans (m1 m2 m3 : JS.Map (metric (list V))) :
  map_grown m1 m2 -> map_grown m2 m3 -> map_grown m1 m3.
Proof.
  intros (kept1 & added1 & -> & H1) (kept2 & added2 & -> & H2).
  apply Forall2_app_inv_l in H2 as (kept & rest & Hk & _ & ->).
  exists kept, (rest ++ added2). rewrite app_assoc. split; [reflexivity |].
  eapply Forall2_trans; [| exact H1 | exact Hk].
  intros x y z [Hxy Gxy] [Hyz Gyz]. split; [congruence |].
  eapply grown_from_trans; eassumption.
Qed.

Lemma addMetric_grown (o : metric V) (this : MetricCollector.t (V := V)) :
  map_grown (MetricCollector._metrics this)
            (MetricCollector._metrics (fst (MetricCollector.addMetric o this))).
Proof.
  unfold MetricCollector.addMetric.
  destruct (MetricCollector._getMetricKey o) as [key | e]; [| apply map_grown_refl].
  destruct (JS.Map_get key (MetricCollector._metrics this)) as [stored |] eqn:Hget;
    cbn [fst MetricCollector._metrics MetricCollector.with_metrics].
  - exists (JS.Map_set key (MetricCollector.push stored (m_value o))
                       (MetricCollector._metrics this)), [].
    rewrite app_nil_r. split; [reflexivity |].
    apply (Map_set_pointwise entry_grown key stored); [apply entry_grown_refl | | exact Hget].
    split; [reflexivity |]. repeat split. now exists [m_value o].
  - rewrite (Map_set_new _ _ _ Hget).
    eexists _, _. split; [reflexivity |].
    generalize (MetricCollector._metrics this).
    induction m; constructor; auto using entry_grown_refl.
Qed.

Lemma addMetrics_grown (this : MetricCollector.t (V := V)) metricsData :
  map_grown (MetricCollector._metrics this)
            (MetricCollector._metrics (fst (MetricCollector.addMetrics this metricsData))).
Proof.
  destruct metricsData as [given |]; [| apply map_grown_refl].
  unfold MetricCollector.addMetrics. cbn [JS.truthy JS.assert].
  apply (forEach_invariant
           (fun s => map_grown (MetricCollector._metrics this) (MetricCollector._metrics s))).
  - intros o s Hs. eapply map_grown_trans; [exact Hs | apply addMetric_grown].
  - apply map_grown_refl.
Qed.

(** X9: whatever [addMetrics] is given and however it ends, every record
    the collector had stands where it stood, with the name, dimensions,
    units and timestamp it was made with, and with its samples as the
    first samples of its value: a merge only adds samples at the end. *)
Theorem records_only_grow
  (this : MetricCollector.t (V := V))
  (metricsData : option (JS.one_or_many (metric V)))
  (i : nat) (first : metric (list V))
  (Hfirst : nth_error (MetricCollector.getMetrics this) i = Some first) :
  exists record,
    nth_error (MetricCollector.getMetrics
                 (fst (MetricCollector.addMetrics this metricsData))) i = Some record /\
    grown_from first record.
Proof.
  destruct (addMetrics_grown this metricsData) as (kept & added & Hm & Hkept).
  unfold MetricCollector.getMetrics, JS.Map_values in *. rewrite Hm, map_app.
  rewrite nth_error_map in Hfirst.
  destruct (nth_error (MetricCollector._metrics this) i) as [old |] eqn:Hold;
    [| discriminate].
  injection Hfirst as <-.
  assert (Hlen : i < length kept).
  { rewrite <- (Forall2_length Hkept). apply nth_error_Some. congruence. }
  rewrite nth_error_app1 by (now rewrite length_map).
  rewrite nth_error_map.
  destruct (nth_error kept i) as [new |] eqn:Hnew;
    [| apply nth_error_None in Hnew; lia].
  exists (snd new). split; [reflexivity |].
  clear -Hkept Hold Hnew. revert i Hold Hnew.
  induction Hkept as [| a b l l' Hab Hl IH]; intros [| i] Hold Hnew;
    cbn in *; try discriminate.
  - injection Hold as ->. injection Hnew as ->. apply Hab.
  - eauto.
Qed.

Lemma addMetric_well_kept (o : metric V) (this : MetricCollector.t (V := V)) :
  well_kept this -> well_kept (fst (MetricCollector.addMetric o this)).
Proof.
  intros (Hnd & Hkeyed & Hsome).
  destruct (MetricCollector._getMetricKey o) as [key | e] eqn:Hkey.
  - destruct (addMetric_keys o this key Hkey) as (this' & Hstep & Hkeys & Hk').
    rewrite Hstep. cbn [fst]. split; [| split; [now apply Hk' |]].
    + rewrite Hkeys. destruct (existsb _ _) eqn:Hex; [now rewrite app_nil_r |].
      apply NoDup_app; [exact Hnd | repeat constructor; intros [] |].
      intros k Hin [Heq | []]. subst k.
      assert (existsb (String.eqb key) (JS.Map_keys (MetricCollector._metrics this)) = true).
      { apply existsb_exists. exists key. split; [exact Hin | apply String.eqb_refl]. }
      congruence.
    + unfold MetricCollector.addMetric in Hstep. rewrite Hkey in Hstep.
      unfold MetricCollector.getMetrics, JS.Map_values in *.
      rewrite Forall_map in *.
      destruct (JS.Map_get key (MetricCollector._metrics this)) as [stored |];
        injection Hstep as <-; cbn [MetricCollector._metrics MetricCollector.with_metrics];
        (apply Map_set_Forall; [| exact Hsome]); cbn.
      * now destruct (m_value stored).
      * discriminate.
  - unfold MetricCollector.addMetric. rewrite Hkey. now repeat split.
Qed.

(** X10: [addMetrics] keeps the map well kept, whatever it is given and
    however it ends: no two records under one key, every record under the
    key of its own name and dimensions, and no record without a sample. *)
Theorem addMetrics_keeps_the_map
  (this : MetricCollector.t (V := V))
  (metricsData : option (JS.one_or_many (metric V)))
  (Hkept : well_kept this) :
  well_kept (fst (MetricCollector.addMetrics this metricsData)).
Proof.
  destruct metricsData as [given |]; [| exact Hkept].
  unfold MetricCollector.addMetrics. cbn [JS.truthy JS.assert].
  apply (forEach_invariant well_kept); [| exact Hkept].
  intros o s. apply addMetric_well_kept.
Qed.

(** X11: [addMetrics] is not all or nothing: when an observation of the
    array has no [dimensions], the observations before it are merged, the
    [TypeError] is thrown for it, and the observations after it are not
    looked at. *)
Theorem addMetrics_stops_at_the_first_bad
  (this merged : MetricCollector.t (V := V)) (good rest : list (metric V))
  (bad : metric V)
  (Hgood : MetricCollector.addMetrics this (Some (JS.Many good)) = (merged, JS.Normal tt))
  (Hbad : m_dimensions bad = None) :
  MetricCollector.addMetrics this (Some (JS.Many (good ++ bad :: rest)))
  = (merged, JS.Throw (JS.TypeError "Cannot convert undefined or null to object")).
Proof.
  unfold MetricCollector.addMetrics in *. cbn [JS.truthy JS.assert JS.concat] in *.
  rewrite forEach_app, Hgood. cbn [JS.forEach].
  unfold MetricCollector.addMetric, MetricCollector._getMetricKey. now rewrite Hbad.
Qed.

(** X12: a chain of [addMetrics] calls, with single observations or with
    arrays, does what one call with all the observations in one array
    does, to the collector and in how it ends. *)
Theorem chained_calls_are_one_call
  (this : MetricCollector.t (V := V)) (calls : list (JS.one_or_many (metric V))) :
  addMetrics_in_turn this calls
  = MetricCollector.addMetrics this (Some (JS.Many (flat_map JS.concat calls))).
Proof. apply addMetrics_in_turn_flat. Qed.

(** X13: one observation with the key [key] changes the record of that key
    and no other: it is afterwards the record that was there with the new
    sample at the end, or a record of the observation alone when there was
    none; under every other key the map holds what it held. *)
Theorem addMetrics_touches_one_record
  (this : MetricCollector.t (V := V)) (o : metric V) (key : string)
  (Hkey : MetricCollector._getMetricKey o = JS.Normal key) :
  snd (MetricCollector.addMetrics this (Some (JS.One o))) = JS.Normal tt /\
  JS.Map_get key
    (MetricCollector._metrics (fst (MetricCollector.addMetrics this (Some (JS.One o)))))
  = Some (match JS.Map_get key (MetricCollector._metrics this) with
          | Some stored => assign_value stored (m_value stored ++ [m_value o])
          | None => assign_value o [m_value o]
          end) /\
  forall other,
    other <> key ->
    JS.Map_get other
      (MetricCollector._metrics (fst (MetricCollector.addMetrics this (Some (JS.One o)))))
    = JS.Map_get other (MetricCollector._metrics this).
Proof.
  unfold MetricCollector.addMetrics. cbn [JS.truthy JS.assert JS.concat JS.forEach].
  unfold MetricCollector.addMetric. rewrite Hkey.
  destruct (JS.Map_get key (MetricCollector._metrics this)) as [stored |];
    cbn [fst snd MetricCollector._metrics MetricCollector.with_metrics];
    (split; [reflexivity |]); (split; [apply Map_get_set_same |]);
    intros other Hne; now apply Map_get_set_other.
Qed.

Lemma total_set (k : string) (stored record : metric (list V)) m :
  JS.Map_get k m = Some stored ->
  list_sum (map (fun e => length (m_value (snd e))) (JS.Map_set k record m))
  + length (m_value stored)
  = list_sum (map (fun e : string * metric (list V) => length (m_value (snd e))) m)
    + length (m_value record).
Proof.
  unfold list_sum.
  induction m as [| [k' v'] m IH]; cbn [JS.Map_get JS.Map_set]; [discriminate |].
  destruct (String.eqb k' k); cbn [map fold_right snd].
  - intros [= ->]. lia.
  - intros Hget. specialize (IH Hget). lia.
Qed.

Lemma sample_count_total (this : MetricCollector.t (V := V)) :
  sample_count this
  = list_sum (map (fun e => length (m_value (snd e))) (MetricCollector._metrics this)).
Proof.
  unfold sample_count, MetricCollector.getMetrics, JS.Map_values. now rewrite map_map.
Qed.

Lemma addMetric_counts (o : metric V) (this : MetricCollector.t (V := V)) :
  m_dimensions o <> None ->
  snd (MetricCollector.addMetric o this) = JS.Normal tt /\
  sample_count (fst (MetricCollector.addMetric o this)) = S (sample_count this).
Proof.
  intros Hd. rewrite !sample_count_total.
  unfold MetricCollector.addMetric, MetricCollector._getMetricKey.
  destruct (m_dimensions o) as [d |]; [| congruence].
  destruct (JS.Map_get _ (MetricCollector._metrics this)) as [stored |] eqn:Hget;
    cbn [fst snd MetricCollector._metrics MetricCollector.with_metrics];
    (split; [reflexivity |]).
  - pose proof (total_set _ _ (MetricCollector.push stored (m_value o)) _ Hget) as Ht.
    cbn [MetricCollector.push assign_value m_value] in Ht.
    rewrite length_app in Ht. cbn [length] in Ht.
    unfold MetricCollector.push in *. lia.
  - rewrite (Map_set_new _ _ _ Hget), map_app, list_sum_app. cbn. lia.
Qed.

(** X14: no sample is lost and none is counted twice: when every
    observation has its [dimensions], [addMetrics] succeeds and the
    collector then holds as many samples more as it was given
    observations. *)
Theorem samples_are_conserved
  (this : MetricCollector.t (V := V)) (observations : list (metric V))
  (Hdimensions : Forall (fun o => m_dimensions o <> None) observations) :
  snd (MetricCollector.addMetrics this (Some (JS.Many observations))) = JS.Normal tt /\
  sample_count (fst (MetricCollector.addMetrics this (Some (JS.Many observations))))
  = sample_count this + length observations.
Proof.
  unfold MetricCollector.addMetrics. cbn [JS.truthy JS.assert JS.concat].
  revert this. induction Hdimensions as [| o observations Ho Hrest IH]; intros this.
  - cbn. split; [reflexivity | lia].
  - cbn [JS.forEach length]. destruct (addMetric_counts o this Ho) as [Hok Hcount].
    destruct (MetricCollector.addMetric o this) as [this1 r]. cbn [fst snd] in *.
    subst r. destruct (IH this1) as [Hok' Hcount'].
    split; [exact Hok' |]. rewrite Hcount', Hcount. lia.
Qed.

End Keeping.

(** ** From construction on *)

Section Living.
Context {V : Type} `{JsArith V}.
Variable AWS_CloudWatch : transport V.

(** X15: [new MetricCollector(options)] throws exactly when
    [serviceNamespace] is missing or empty.  Otherwise the collector has
    that namespace and the client given (or the one of the SDK), [auto]
    as given or off, [flushFrequency] as given or 20000 when missing or 0,
    an empty map, and is stopped exactly when [auto] is off; with [auto]
    on one timer is armed, set to [flushFrequency], and the collector
    holds its handle; with [auto] off the world is as it was. *)
Theorem new_starts_as_configured (options : Options.t V) (w : world V) :
  match MetricCollector.new AWS_CloudWatch options w with
  | JS.Throw e =>
      JS.truthy_string (Options.serviceNamespace options) = false /\
      e = JS.AssertionError "missing options.serviceNamespace"
  | JS.Normal (this, w') =>
      JS.truthy_string (Options.serviceNamespace options) = true /\
      Options.serviceNamespace options
      = Some (CloudWatchDriver.serviceNamespace (MetricCollector.cloudwatchDriver this)) /\
      CloudWatchDriver.client (MetricCollector.cloudwatchDriver this)
      = match Options.client options with
        | Some given => given
        | None => AWS_CloudWatch
        end /\
      MetricCollector.auto this
      = match Options.auto options with
        | Some given => given
        | None => false
        end /\
      MetricCollector.flushFrequency this
      = match Options.flushFrequency options with
        | Some 0%Z | None => 20000%Z
        | Some given => given
        end /\
      MetricCollector._metrics this = [] /\
      MetricCollector._stopped this = negb (MetricCollector.auto this) /\
      (if MetricCollector.auto this
       then MetricCollector._flushTimer this = Some (next_timer w) /\
            timers w'
            = timers w ++ [mkTimer (next_timer w) (MetricCollector.flushFrequency this)] /\
            puts w' = puts w /\ logs w' = logs w
       else MetricCollector._flushTimer this = None /\ w' = w)
  end.
Proof.
  unfold MetricCollector.new, CloudWatchDriver.new. cbn [Options.serviceNamespace].
  destruct (Options.serviceNamespace options) as [[| c s] |]; cbn;
    try (split; reflexivity).
  destruct (Options.auto options) as [[|] |]; cbn; repeat split.
Qed.

Lemma addMetrics_only_metrics (this : MetricCollector.t (V := V)) metricsData :
  exists m, fst (MetricCollector.addMetrics this metricsData)
            = MetricCollector.with_metrics this m.
Proof.
  assert (Hsame : MetricCollector.with_metrics this (MetricCollector._metrics this) = this)
    by (now destruct this).
  destruct metricsData as [given |];
    [| exists (MetricCollector._metrics this); now rewrite Hsame].
  unfold MetricCollector.addMetrics. cbn [JS.truthy JS.assert].
  apply (forEach_invariant (fun s => exists m, s = MetricCollector.with_metrics this m)).
  - intros o s [m ->]. unfold MetricCollector.addMetric.
    destruct (MetricCollector._getMetricKey o); [| now exists m].
    destruct (JS.Map_get _ _); eexists; reflexivity.
  - exists (MetricCollector._metrics this). now rewrite Hsame.
Qed.

Lemma setupFlushTimer_in_step (this : MetricCollector.t (V := V)) (w : world V) :
  running this = true ->
  (forall h, MetricCollector._flushTimer this = Some h -> h < next_timer w) ->
  timers (clearTimeout (MetricCollector._flushTimer this) w) = [] ->
  timer_in_step (fst (MetricCollector._setupFlushTimer this w))
                (snd (MetricCollector._setupFlushTimer this w)).
Proof.
  intros Hrun Hfresh Hclear. unfold MetricCollector._setupFlushTimer, setTimeout.
  cbn [fst snd]. split.
  - cbn. intros h [= <-]. destruct (MetricCollector._flushTimer this); cbn; lia.
  - unfold running in *. cbn [MetricCollector.auto MetricCollector._stopped
                               MetricCollector.with_flushTimer].
    rewrite Hrun. eexists. split; [reflexivity |]. cbn [timers].
    now rewrite Hclear.
Qed.

Lemma flush_in_step (this : MetricCollector.t (V := V)) (w : world V) :
  (forall h, MetricCollector._flushTimer this = Some h -> h < next_timer w) ->
  (if running this
   then timers (clearTimeout (MetricCollector._flushTimer this) w) = []
   else timers w = []) ->
  timer_in_step (fst (fst (MetricCollector.flush this w)))
                (snd (fst (MetricCollector.flush this w))).
Proof.
  intros Hfresh Htimers. rewrite flush_state. fold (running this).
  destruct (running this) eqn:Hrun.
  - apply (setupFlushTimer_in_step (MetricCollector.clearMetrics this) w);
      [exact Hrun | exact Hfresh | exact Htimers].
  - cbn [fst snd]. split; [exact Hfresh |].
    change (running (MetricCollector.clearMetrics this)) with (running this).
    now rewrite Hrun.
Qed.

Lemma in_step_clear (this : MetricCollector.t (V := V)) (w : world V) :
  timer_in_step this w ->
  timers (clearTimeout (MetricCollector._flushTimer this) w) = [].
Proof.
  intros [_ Hstep]. destruct (running this).
  - destruct Hstep as (h & Hh & Ht). rewrite Hh. cbn. rewrite Ht. cbn.
    now rewrite Nat.eqb_refl.
  - unfold clearTimeout. destruct (MetricCollector._flushTimer this); [| exact Hstep].
    cbn. now rewrite Hstep.
Qed.

Lemma next_timer_clear (handle : option nat) (w : world V) :
  next_timer (clearTimeout handle w) = next_timer w.
Proof. now destruct handle. Qed.

Lemma event_in_step (e : event) (this : MetricCollector.t (V := V)) (w : world V) :
  timer_in_step this w ->
  timer_in_step (fst (after_event e (this, w))) (snd (after_event e (this, w))).
Proof.
  intros Hstep. pose proof Hstep as [Hfresh Htimers].
  destruct e as [metricsData | | | | handle | sent lines]; cbn [after_event fst snd].
  - destruct (addMetrics_only_metrics this metricsData) as [m ->]. exact Hstep.
  - exact Hstep.
  - apply flush_in_step; [exact Hfresh |].
    destruct (running this); [now apply in_step_clear | exact Htimers].
  - unfold MetricCollector.stop. destruct (MetricCollector._stopped this) eqn:Hs;
      [exact Hstep |].
    apply flush_in_step.
    + intros h Hh. rewrite next_timer_clear. now apply Hfresh.
    + unfold running. cbn [MetricCollector.auto MetricCollector._stopped
                             MetricCollector.with_stopped negb].
      rewrite andb_false_r. exact (in_step_clear this w Hstep).
  - unfold expire.
    destruct (existsb _ (timers w)) eqn:Hex; cbn [fst snd]; [| exact Hstep].
    destruct (running this) eqn:Hrun.
    + destruct Htimers as (h & Hh & Ht). rewrite Ht in *. cbn in Hex.
      rewrite orb_false_r in Hex. cbn [filter timer_id]. rewrite Hex. cbn [negb].
      apply flush_in_step; [exact Hfresh |]. rewrite Hrun.
      unfold clearTimeout. now destruct (MetricCollector._flushTimer this).
    + rewrite Htimers in Hex. discriminate.
  - exact Hstep.
Qed.

Lemma events_in_step (events : list event) :
  forall (this : MetricCollector.t (V := V)) (w : world V),
    timer_in_step this w ->
    timer_in_step (fst (after_events events (this, w)))
                  (snd (after_events events (this, w))).
Proof.
  unfold after_events.
  induction events as [| e events IH]; intros this w Hstep; [exact Hstep |].
  cbn [fold_left]. pose proof (event_in_step e this w Hstep) as Hnext.
  destruct (after_event e (this, w)) as [this1 w1]. now apply IH.
Qed.

(** What the constructor makes before it arms the timer. *)
Lemma new_made (options : Options.t V) (w w' : world V) this :
  MetricCollector.new AWS_CloudWatch options w = JS.Normal (this, w') ->
  exists made : MetricCollector.t (V := V),
    running made = MetricCollector.auto made /\
    MetricCollector._flushTimer made = None /\
    (this, w') = (if running made
                  then MetricCollector._setupFlushTimer made w
                  else (made, w)).
Proof.
  unfold MetricCollector.new.
  destruct (JS.assert _ _); [| discriminate].
  destruct (CloudWatchDriver.new _ _) as [driver |]; [| discriminate].
  set (auto := match Options.auto options with Some b => b | None => false end).
  set (frequency := match Options.flushFrequency options with
                    | Some 0%Z | None => MetricCollector.DEFAULT_FLUSH_FREQUENCY
                    | Some f => f
                    end).
  intros Hnew.
  exists (MetricCollector.mk driver auto frequency [] (negb auto) None).
  unfold running. cbn [MetricCollector.auto MetricCollector._stopped
                         MetricCollector._flushTimer].
  rewrite negb_involutive, andb_diag.
  split; [reflexivity |]. split; [reflexivity |].
  destruct auto; now injection Hnew as <- <-.
Qed.

(** X16: from construction on, whatever the owner calls ([addMetrics],
    [clearMetrics], [flush], [stop]), whichever timers run out and
    whatever the submits in flight do, the timer is in step with the mode:
    while the collector is in automatic mode and not stopped exactly one
    timer is armed, the one it holds, set to [flushFrequency]; otherwise
    no timer is armed. *)
Theorem timer_stays_in_step
  (options : Options.t V) (w w' : world V) (this : MetricCollector.t (V := V))
  (events : list event)
  (Hquiet : timers w = [])
  (Hnew : MetricCollector.new AWS_CloudWatch options w = JS.Normal (this, w')) :
  timer_in_step (fst (after_events events (this, w')))
                (snd (after_events events (this, w'))).
Proof.
  apply events_in_step.
  destruct (new_made _ _ _ _ Hnew) as (made & Hrunning & Hnone & Hresult).
  destruct (running made) eqn:Hrun.
  - injection Hresult as -> ->.
    apply setupFlushTimer_in_step; [exact Hrun | |].
    + intros h Hh. congruence.
    + now rewrite Hnone.
  - injection Hresult as -> ->. split.
    + intros h Hh. congruence.
    + now rewrite Hrun.
Qed.

Lemma event_keeps_settings (e : event) (this : MetricCollector.t (V := V)) (w : world V) :
  let this' := fst (after_event e (this, w)) in
  MetricCollector.cloudwatchDriver this' = MetricCollector.cloudwatchDriver this /\
  MetricCollector.auto this' = MetricCollector.auto this /\
  MetricCollector.flushFrequency this' = MetricCollector.flushFrequency this /\
  (MetricCollector._stopped this = true -> MetricCollector._stopped this' = true).
Proof.
  assert (Hflush : forall (c : MetricCollector.t (V := V)) w0,
             MetricCollector.cloudwatchDriver (fst (fst (MetricCollector.flush c w0)))
             = MetricCollector.cloudwatchDriver c /\
             MetricCollector.auto (fst (fst (MetricCollector.flush c w0)))
             = MetricCollector.auto c /\
             MetricCollector.flushFrequency (fst (fst (MetricCollector.flush c w0)))
             = MetricCollector.flushFrequency c /\
             MetricCollector._stopped (fst (fst (MetricCollector.flush c w0)))
             = MetricCollector._stopped c).
  { intros c w0. rewrite flush_state.
    destruct (MetricCollector.auto c && negb (MetricCollector._stopped c));
      repeat split. }
  destruct e as [metricsData | | | | handle | sent lines]; cbn [after_event fst snd].
  - destruct (addMetrics_only_metrics this metricsData) as [m ->]. now repeat split.
  - now repeat split.
  - destruct (Hflush this w) as (-> & -> & -> & ->). now repeat split.
  - unfold MetricCollector.stop. destruct (MetricCollector._stopped this) eqn:Hs.
    + now repeat split.
    + destruct (Hflush (MetricCollector.with_stopped this true)
                       (clearTimeout (MetricCollector._flushTimer
                                        (MetricCollector.with_stopped this true)) w))
        as (-> & -> & -> & ->). now repeat split.
  - destruct (expire handle this w) as [result |] eqn:Hexp; [| now repeat split].
    unfold expire in Hexp. destruct (existsb _ _); [| discriminate].
    injection Hexp as <-.
    match goal with |- context [MetricCollector.flush this ?w0] =>
      destruct (Hflush this w0) as (-> & -> & -> & ->) end.
    now repeat split.
  - now repeat split.
Qed.

Lemma after_operations_events (events : list event) :
  forall state : MetricCollector.t (V := V) * world V,
    after_operations (map Happens events) state = after_events events state.
Proof.
  unfold after_operations, after_events.
  induction events as [| e events IH]; intros state; [reflexivity |].
  cbn [map fold_left after_operation]. apply IH.
Qed.

Lemma operation_keeps_settings (o : operation)
  (this : MetricCollector.t (V := V)) (w : world V) :
  let this' := fst (after_operation o (this, w)) in
  MetricCollector.cloudwatchDriver this' = MetricCollector.cloudwatchDriver this /\
  MetricCollector.auto this' = MetricCollector.auto this /\
  MetricCollector.flushFrequency this' = MetricCollector.flushFrequency this /\
  (MetricCollector._stopped this = true -> MetricCollector._stopped this' = true).
Proof.
  destruct o as [e |]; [apply event_keeps_settings |].
  cbn [after_operation]. unfold MetricCollector._setupFlushTimer, setTimeout.
  cbn. now repeat split.
Qed.

(** X17: there is no way back from stopped: once [_stopped] is set, the
    collector stays stopped, and its driver, [auto] and [flushFrequency]
    never change, whatever is called ([addMetrics], [clearMetrics],
    [flush], [stop], and [_setupFlushTimer] too), whichever timers run
    out and whatever the submits in flight do.  When [_setupFlushTimer]
    is not called from outside, a stopped collector whose timer was in
    step has no timer armed ever after, so no flush is started by a timer
    again. *)
Theorem stopped_for_good
  (this : MetricCollector.t (V := V)) (w : world V) (operations : list operation)
  (Hstopped : MetricCollector._stopped this = true) :
  MetricCollector._stopped (fst (after_operations operations (this, w))) = true /\
  MetricCollector.cloudwatchDriver (fst (after_operations operations (this, w)))
  = MetricCollector.cloudwatchDriver this /\
  MetricCollector.auto (fst (after_operations operations (this, w)))
  = MetricCollector.auto this /\
  MetricCollector.flushFrequency (fst (after_operations operations (this, w)))
  = MetricCollector.flushFrequency this /\
  (forall events,
      operations = map Happens events ->
      timer_in_step this w ->
      timers (snd (after_operations operations (this, w))) = [] /\
      forall handle,
        expire handle (fst (after_operations operations (this, w)))
                      (snd (after_operations operations (this, w))) = None).
Proof.
  assert (Hsettings : forall operations (c : MetricCollector.t (V := V)) w0,
             MetricCollector._stopped c = true ->
             MetricCollector._stopped (fst (after_operations operations (c, w0))) = true /\
             MetricCollector.cloudwatchDriver (fst (after_operations operations (c, w0)))
             = MetricCollector.cloudwatchDriver c /\
             MetricCollector.auto (fst (after_operations operations (c, w0)))
             = MetricCollector.auto c /\
             MetricCollector.flushFrequency (fst (after_operations operations (c, w0)))
             = MetricCollector.flushFrequency c).
  { unfold after_operations. clear.
    induction operations as [| o operations IH]; intros c w0 Hs.
    - now repeat split.
    - cbn [fold_left].
      destruct (operation_keeps_settings o c w0) as (Hd & Ha & Hf & Hst).
      specialize (Hst Hs).
      destruct (after_operation o (c, w0)) as [c1 w1]. cbn [fst] in *.
      destruct (IH c1 w1 Hst) as (? & ? & ? & ?). repeat split; congruence. }
  destruct (Hsettings operations this w Hstopped) as (Hs & Hd & Ha & Hf).
  split; [exact Hs |]. split; [exact Hd |]. split; [exact Ha |]. split; [exact Hf |].
  intros events Hevents Hstep. subst operations.
  rewrite after_operations_events in *.
  pose proof (events_in_step events this w Hstep) as [_ Ht].
  unfold running in Ht. rewrite Hs, andb_false_r in Ht.
  split; [exact Ht |]. intros handle. unfold expire. now rewrite Ht.
Qed.

(** X18: [_setupFlushTimer] trades the timer the collector holds for a new
    one: afterwards the collector holds a handle it did not hold before,
    a timer with that handle set to [flushFrequency] is armed, no timer
    with the old handle is armed any more, and the timers of other
    handles are as they were. *)
Theorem setupFlushTimer_trades_the_timer
  (this : MetricCollector.t (V := V)) (w : world V)
  (Hfresh : forall h, MetricCollector._flushTimer this = Some h -> h < next_timer w) :
  exists handle,
    MetricCollector._flushTimer (fst (MetricCollector._setupFlushTimer this w))
    = Some handle /\
    MetricCollector._flushTimer this <> Some handle /\
    In (mkTimer handle (MetricCollector.flushFrequency this))
       (timers (snd (MetricCollector._setupFlushTimer this w))) /\
    (forall old t,
        MetricCollector._flushTimer this = Some old ->
        In t (timers (snd (MetricCollector._setupFlushTimer this w))) ->
        timer_id t <> old) /\
    (forall t,
        In t (timers w) ->
        MetricCollector._flushTimer this <> Some (timer_id t) ->
        In t (timers (snd (MetricCollector._setupFlushTimer this w)))).
Proof.
  exists (next_timer w).
  unfold MetricCollector._setupFlushTimer, setTimeout, clearTimeout.
  destruct (MetricCollector._flushTimer this) as [old |] eqn:Hold; cbn.
  - specialize (Hfresh old eq_refl). repeat split.
    + intros [= ->]. lia.
    + apply in_or_app. right. now left.
    + intros old' t [= <-] Hin.
      apply in_app_or in Hin as [Hin | [<- | []]].
      * apply filter_In in Hin as [_ Hne].
        apply negb_true_iff, Nat.eqb_neq in Hne. exact Hne.
      * cbn. lia.
    + intros t Hin Hne. apply in_or_app. left. apply filter_In. split; [exact Hin |].
      apply negb_true_iff, Nat.eqb_neq. congruence.
  - repeat split.
    + discriminate.
    + apply in_or_app. right. now left.
    + discriminate.
    + intros t Hin _. apply in_or_app. now left.
Qed.

End Living.

(** ** From the observations to the transport *)

Section Accounting.
Context {V : Type} `{JsArith V}.

Lemma list_sum_map_rev {A} (f : A -> nat) (l : list A) :
  list_sum (map f (rev l)) = list_sum (map f l).
Proof.
  induction l as [| x l IH]; [reflexivity |].
  cbn [rev map]. rewrite map_app, list_sum_app, IH.
  unfold list_sum. cbn [map fold_right]. lia.
Qed.

Lemma list_sum_map_order {A} (f : A -> nat) (l : list A) :
  list_sum (map f (map_order l)) = list_sum (map f l).
Proof.
  destruct l as [| x l]; [reflexivity |].
  pose proof (list_sum_map_rev f l) as Hrev. unfold list_sum in *.
  cbn [map_order map fold_right]. now rewrite Hrev.
Qed.

Lemma list_sum_concat {A} (f : A -> nat) (ls : list (list A)) :
  list_sum (map (fun c => list_sum (map f c)) ls) = list_sum (map f (concat ls)).
Proof.
  induction ls as [| c ls IH]; [reflexivity |].
  cbn [map concat]. rewrite map_app, list_sum_app, <- IH. reflexivity.
Qed.

(** The records of a well kept map all encode, each to an entry that
    counts its samples. *)
Lemma records_encode (records : list (metric (list V))) :
  Forall (fun record => m_value record <> []) records ->
  exists entries,
    JS.map_throw CloudWatchDriver.wireEntry (map MetricCollector.rawMetric records)
    = JS.Normal entries /\
    map (fun entry => match MetricDatum.StatisticValues entry with
                      | Some statistics => StatisticSet.SampleCount statistics
                      | None => 1
                      end) entries
    = map (fun record => length (m_value record)) records.
Proof.
  induction 1 as [| record records Hsome Hrest (entries & Henc & Hcount)].
  - exists []. split; reflexivity.
  - destruct (m_value record) as [| v vs] eqn:Hv; [congruence |].
    cbn [map JS.map_throw]. rewrite Henc.
    unfold CloudWatchDriver.wireEntry at 1, MetricCollector.rawMetric at 1.
    cbn [m_value assign_value]. rewrite Hv, statisticValues_cons.
    eexists. split; [reflexivity |]. cbn [map MetricDatum.StatisticValues
                                           StatisticSet.SampleCount].
    now rewrite Hcount.
Qed.

(** X19: what a flush hands to a transport that fulfils every call
    accounts for every sample the collector held, once: the sample counts
    of the entries sent add up to the number of samples accumulated, the
    promise is fulfilled, and the collector is left with none. *)
Theorem flush_accounts_for_every_sample
  (this : MetricCollector.t (V := V)) (w0 w : world V)
  (Hkept : well_kept this)
  (Hfulfils : forall history metrics,
      CloudWatchDriver.client (MetricCollector.cloudwatchDriver this) history metrics
      = None) :
  exists sent,
    snd (MetricCollector.flush this w0) w
    = (after_sending (CloudWatchDriver.logger (MetricCollector.cloudwatchDriver this))
                     sent w, Resolved) /\
    list_sum (map samples_sent sent) = sample_count this /\
    sample_count (fst (fst (MetricCollector.flush this w0))) = 0.
Proof.
  destruct Hkept as (_ & _ & Hsome).
  destruct (records_encode _ Hsome) as (entries & Henc & Hcount).
  assert (Hleft : sample_count (fst (fst (MetricCollector.flush this w0))) = 0).
  { unfold sample_count, MetricCollector.getMetrics. now rewrite flush_metrics. }
  rewrite flush_promise.
  destruct (MetricCollector.getMetrics this) as [| r rs] eqn:Hrecords.
  - exists []. cbn [length Nat.eqb]. unfold BPromise_resolve.
    rewrite after_sending_nil. unfold sample_count. rewrite Hrecords.
    repeat split. exact Hleft.
  - cbn [length Nat.eqb].
    exists (map (batch_of (MetricCollector.cloudwatchDriver this))
                (map_order (pieces 19 entries))).
    split; [| split; [| exact Hleft]].
    + unfold CloudWatchDriver.sendMetrics, BPromise_map. cbn [JS.concat].
      change (chunk ?l CloudWatchDriver.METRIC_COUNT_LIMIT) with (pieces 19 l).
      pose proof (Forall2_map_order _ _ _
                    (map_throw_pieces CloudWatchDriver.wireEntry 19 _ _ Henc)) as Hq.
      rewrite <- (app_nil_r (map_order (pieces 19 _))).
      rewrite (run_queue_sent _ _ _ Hq [] w); [reflexivity |].
      now apply fulfils_always.
    + unfold sample_count. rewrite Hrecords, <- Hcount.
      rewrite map_map. unfold samples_sent. cbn [MetricData batch_of].
      rewrite list_sum_map_order, list_sum_concat. now rewrite concat_pieces.
Qed.

Lemma forEach_cons {A S} (f : A -> S -> S * JS.completion unit) x l (s : S) :
  JS.forEach f (x :: l) s
  = match f x s with
    | (s', JS.Normal _) => JS.forEach f l s'
    | (s', JS.Throw e) => (s', JS.Throw e)
    end.
Proof. reflexivity. Qed.

Lemma append_assoc (a b c : string) : ((a ++ b) ++ c = a ++ (b ++ c))%string.
Proof. induction a as [| x a IH]; cbn; [reflexivity | now rewrite IH]. Qed.

(** X20: the key does not mark where the name ends.  A metric named [name]
    whose first dimension has the value [v] has the key of the metric
    named [name:v] with the other dimensions only, whatever their values,
    units and timestamps; so an observation of the second, given after an
    observation of the first, is merged into the record of the first. *)
Theorem key_does_not_mark_where_the_name_ends
  (this : MetricCollector.t (V := V)) (one other : metric V)
  (d v : string) (dimensions : JS.object string)
  (Hone : m_dimensions one = Some ((d, v) :: dimensions))
  (Hother : m_dimensions other = Some dimensions)
  (Hname : m_name other = (m_name one ++ ":" ++ v)%string)
  (Hmore : dimensions <> [])
  (Hd : ~ In d (JS.Object_keys dimensions))
  (Hnew : forall key, MetricCollector._getMetricKey one = JS.Normal key ->
                      JS.Map_get key (MetricCollector._metrics this) = None) :
  MetricCollector._getMetricKey one = MetricCollector._getMetricKey other /\
  MetricCollector.getMetrics
    (fst (MetricCollector.addMetrics this (Some (JS.Many [one; other]))))
  = MetricCollector.getMetrics this
    ++ [assign_value one [m_value one; m_value other]].
Proof.
  assert (Hkey : MetricCollector._getMetricKey one = MetricCollector._getMetricKey other).
  { unfold MetricCollector._getMetricKey. rewrite Hone, Hother, Hname. f_equal.
    unfold JS.Object_keys. cbn [map fst]. rewrite get_first.
    assert (Hvals : map (fun k => JS.get ((d, v) :: dimensions) k) (map fst dimensions)
                    = map (fun k => JS.get dimensions k) (map fst dimensions)).
    { apply map_ext_in. intros k Hin. cbn [JS.get].
      destruct (String.eqb d k) eqn:Hk; [| reflexivity].
      apply String.eqb_eq in Hk. subst. contradiction. }
    rewrite Hvals.
    destruct dimensions as [| [k1 v1] rest]; [congruence |]. cbn [map fst JS.join].
    cbn [JS.to_joined]. now rewrite !append_assoc. }
  split; [exact Hkey |].
  destruct (MetricCollector._getMetricKey one) as [key |] eqn:Hk1.
  - specialize (Hnew key eq_refl).
    unfold MetricCollector.addMetrics. cbn [JS.truthy JS.assert JS.concat].
    rewrite forEach_cons, (addMetric_new _ _ _ Hk1 Hnew).
    rewrite (forEach_same_key key [other] (Forall_cons _ (eq_sym Hkey) (Forall_nil _))
               (MetricCollector.with_metrics this
                  (MetricCollector._metrics this ++ [(key, assign_value one [m_value one])]))
               (MetricCollector._metrics this)
               (assign_value one [m_value one]) Hnew eq_refl).
    unfold MetricCollector.getMetrics, JS.Map_values. cbn. now rewrite map_app.
  - unfold MetricCollector._getMetricKey in Hk1. now rewrite Hone in Hk1.
Qed.

End Accounting.

(** ** The constructor of the driver, and a timer running out *)

Section DriverAndTimer.
Context {V : Type} `{JsArith V}.
Variable AWS_CloudWatch : transport V.

(** X21: [new CloudWatchDriver(options)] throws exactly when
    [serviceNamespace] is missing or empty; otherwise the driver has that
    namespace, the client given or else the one of the SDK, and the logger
    given or else the console, which has [debug]. *)
Theorem driver_starts_as_configured (options : Options.t V) :
  match CloudWatchDriver.new AWS_CloudWatch options with
  | JS.Throw e =>
      JS.truthy_string (Options.serviceNamespace options) = false /\
      e = JS.AssertionError "serviceNamespace is required"
  | JS.Normal driver =>
      JS.truthy_string (Options.serviceNamespace options) = true /\
      Options.serviceNamespace options = Some (CloudWatchDriver.serviceNamespace driver) /\
      CloudWatchDriver.client driver
      = match Options.client options with
        | Some given => given
        | None => AWS_CloudWatch
        end /\
      CloudWatchDriver.logger driver
      = match Options.logger options with
        | Some given => given
        | None => mkLogger true
        end
  end.
Proof.
  unfold CloudWatchDriver.new.
  destruct (Options.serviceNamespace options) as [[| c s] |]; cbn; repeat split.
Qed.

(** X22: when the timer of a running collector runs out, the collector is
    flushed and a new timer is armed: the map is empty afterwards, the
    promise is the one of a flush of the records (a submit of them, or
    fulfilled at once when there are none), and the one timer armed is a
    new one, again set to [flushFrequency].  A handle that is not armed
    runs nothing. *)
Theorem expired_timer_flushes_and_rearms
  (this : MetricCollector.t (V := V)) (w : world V) (handle : nat)
  (Hstep : timer_in_step this w)
  (Hrunning : running this = true)
  (Hheld : MetricCollector._flushTimer this = Some handle) :
  (exists this' w',
      expire handle this w
      = Some (this', w', snd (MetricCollector.flush this w)) /\
      MetricCollector.getMetrics this' = [] /\
      MetricCollector._flushTimer this' = Some (next_timer w) /\
      next_timer w <> handle /\
      timers w' = [mkTimer (next_timer w) (MetricCollector.flushFrequency this)] /\
      puts w' = puts w) /\
  (forall other, other <> handle -> expire other this w = None).
Proof.
  destruct Hstep as [Hfresh Htimers]. rewrite Hrunning in Htimers.
  destruct Htimers as (h & Hh & Ht).
  assert (h = handle) by congruence. subst h.
  split.
  - unfold expire. rewrite Ht. cbn [existsb filter timer_id].
    rewrite Nat.eqb_refl. cbn [orb negb].
    match goal with |- context [MetricCollector.flush this ?w0] =>
      set (spent := w0) end.
    exists (fst (fst (MetricCollector.flush this spent))),
           (snd (fst (MetricCollector.flush this spent))).
    split.
    { rewrite !flush_promise.
      destruct (MetricCollector.flush this spent) as [[a b] c] eqn:Hf.
      cbn [fst snd].
      pose proof (flush_promise this spent) as Hp. rewrite Hf in Hp.
      cbn [snd] in Hp. now rewrite <- Hp. }
    split; [unfold MetricCollector.getMetrics; now rewrite flush_metrics |].
    rewrite flush_state. fold (running this). rewrite Hrunning.
    unfold MetricCollector._setupFlushTimer, setTimeout, clearTimeout.
    cbn [MetricCollector._flushTimer MetricCollector.clearMetrics
         MetricCollector.with_metrics]. rewrite Hheld. cbn.
    specialize (Hfresh handle Hheld). repeat split. lia.
  - intros other Hne. unfold expire. rewrite Ht. cbn [existsb timer_id].
    apply Nat.eqb_neq in Hne. rewrite Nat.eqb_sym, Hne. reflexivity.
Qed.

End DriverAndTimer.

(** ** The further theorems at work *)

(** A metric with two dimensions. *)
Lemma dimensions_are_listed_in_order_witness :
  map (fun d => (Dimension.Name d, Dimension.Value d))
      (MetricDatum.Dimensions Scene.latency_entry)
  = [("region", Some "eu"); ("tenant", Some "t1")].
Proof.
  refine (dimensions_are_listed_in_order Scene.latency Scene.latency_entry eq_refl _).
  cbn. repeat constructor; cbn; intuition discriminate.
Defined.

(** Twenty records, and a transport that rejects at once. *)
Lemma up_to_twenty_go_in_one_call_witness :
  puts (fst (CloudWatchDriver.sendMetrics (Sample.driver (Sample.rejecting_call 0))
               (JS.Many (Sample.numbered 20)) Sample.nothing_yet))
  = [batch_of (Sample.driver (Sample.rejecting_call 0)) (Sample.numbered_entries 20)] /\
  snd (CloudWatchDriver.sendMetrics (Sample.driver (Sample.rejecting_call 0))
         (JS.Many (Sample.numbered 20)) Sample.nothing_yet)
  = Rejected (Failed (mkError "Throttling" true)).
Proof.
  exact (up_to_twenty_go_in_one_call
           (Sample.driver (Sample.rejecting_call 0))
           (Sample.numbered 20) (Sample.numbered_entries 20) Sample.nothing_yet
           ltac:(vm_compute; repeat constructor)
           ltac:(vm_compute; repeat constructor)
           eq_refl).
Defined.

(** Forty records in two calls. *)
Lemma up_to_forty_go_in_order_witness :
  exists sent,
    CloudWatchDriver.sendMetrics (Sample.driver Sample.accepting)
      (JS.Many (Sample.numbered 40)) Sample.nothing_yet
    = (after_sending console sent Sample.nothing_yet, Resolved) /\
    concat (map MetricData sent) = Sample.numbered_entries 40.
Proof.
  destruct (up_to_forty_go_in_order
              (Sample.driver Sample.accepting)
              (Sample.numbered 40) (Sample.numbered_entries 40) Sample.nothing_yet
              ltac:(vm_compute; repeat constructor) eq_refl eq_refl)
    as (sent & Hrun & _ & Hall).
  exists sent. split; [exact Hrun | exact Hall].
Defined.

(** Twenty records that encode and one that does not. *)
Lemma encoding_error_ends_submit_witness :
  CloudWatchDriver.sendMetrics (Sample.driver Sample.accepting)
    (JS.Many (Sample.numbered 20 ++ [Scene.no_samples])) Sample.nothing_yet
  = (after_sending console
       [batch_of (Sample.driver Sample.accepting) (Sample.numbered_entries 20)]
       Sample.nothing_yet,
     Rejected (Thrown (JS.TypeError "Reduce of empty array with no initial value"))).
Proof.
  exact (proj1 (encoding_error_ends_submit
                  (Sample.driver Sample.accepting)
                  (JS.Many (Sample.numbered 20 ++ [Scene.no_samples]))
                  Sample.nothing_yet
                  [Sample.numbered 20] [] [Scene.no_samples]
                  [Sample.numbered_entries 20]
                  (JS.TypeError "Reduce of empty array with no initial value")
                  eq_refl ltac:(repeat constructor) eq_refl eq_refl)).
Defined.

(** A second sample for the record of [eventCount]. *)
Lemma records_only_grow_witness :
  exists record,
    nth_error (MetricCollector.getMetrics
                 (fst (MetricCollector.addMetrics Scene.one_record
                         (Some (JS.One (Sample.eventCount 2)))))) 0 = Some record /\
    grown_from (assign_value (Sample.eventCount 1) [1%Z]) record.
Proof.
  exact (records_only_grow Scene.one_record (Some (JS.One (Sample.eventCount 2)))
           0 (assign_value (Sample.eventCount 1) [1%Z]) eq_refl).
Defined.

Lemma manual_is_well_kept : well_kept (Sample.manual Sample.accepting).
Proof. repeat split; constructor. Qed.

(** A new collector, given two observations and one without dimensions. *)
Lemma addMetrics_keeps_the_map_witness :
  well_kept
    (fst (MetricCollector.addMetrics (Sample.manual Sample.accepting)
            (Some (JS.Many [Sample.eventCount 1; Sample.processingTime 2;
                            Sample.no_dimensions 3])))).
Proof.
  exact (addMetrics_keeps_the_map (Sample.manual Sample.accepting) _ manual_is_well_kept).
Defined.

(** The second of three observations has no dimensions. *)
Lemma addMetrics_stops_at_the_first_bad_witness :
  MetricCollector.addMetrics (Sample.manual Sample.accepting)
    (Some (JS.Many ([Sample.eventCount 1] ++ Sample.no_dimensions 2 :: [Sample.eventCount 3])))
  = (Scene.one_record,
     JS.Throw (JS.TypeError "Cannot convert undefined or null to object")).
Proof.
  exact (addMetrics_stops_at_the_first_bad
           (Sample.manual Sample.accepting) Scene.one_record
           [Sample.eventCount 1] [Sample.eventCount 3] (Sample.no_dimensions 2)
           eq_refl eq_refl).
Defined.

(** An observation of [eventCount] for a collector that holds
    [processingTime] too. *)
Lemma addMetrics_touches_one_record_witness :
  JS.Map_get "processingTime:X"
    (MetricCollector._metrics
       (fst (MetricCollector.addMetrics Scene.two_records
               (Some (JS.One (Sample.eventCount 5))))))
  = JS.Map_get "processingTime:X" (MetricCollector._metrics Scene.two_records).
Proof.
  refine (proj2 (proj2 (addMetrics_touches_one_record Scene.two_records
                          (Sample.eventCount 5) "eventCount:X" eq_refl))
                "processingTime:X" _).
  discriminate.
Defined.

(** Three observations for a collector that holds three samples. *)
Lemma samples_are_conserved_witness :
  sample_count
    (fst (MetricCollector.addMetrics Scene.two_records
            (Some (JS.Many [Sample.eventCount 1; Sample.eventCount_other 2;
                            Sample.processingTime 3]))))
  = 6.
Proof.
  exact (proj2 (samples_are_conserved Scene.two_records
                  [Sample.eventCount 1; Sample.eventCount_other 2;
                   Sample.processingTime 3]
                  ltac:(repeat constructor; discriminate))).
Defined.

(** A collector made in automatic mode, through a day of events. *)
Lemma timer_stays_in_step_witness :
  timer_in_step
    (fst (after_events Scene.day (Sample.automatic Sample.accepting, Sample.timer_armed)))
    (snd (after_events Scene.day (Sample.automatic Sample.accepting, Sample.timer_armed))).
Proof.
  exact (timer_stays_in_step Sample.accepting Scene.auto_options
           Sample.nothing_yet Sample.timer_armed (Sample.automatic Sample.accepting)
           Scene.day eq_refl eq_refl).
Defined.

(** A collector made without [auto]: flushed, its timer set up from
    outside and run out, then stopped. *)
Lemma stopped_for_good_witness :
  MetricCollector._stopped
    (fst (after_operations
            [Happens Flush; SetupFlushTimer; Happens (Expire 0); Happens Stop]
            (Sample.manual Sample.accepting, Sample.nothing_yet)))
  = true.
Proof.
  exact (proj1 (stopped_for_good (Sample.manual Sample.accepting) Sample.nothing_yet
                  [Happens Flush; SetupFlushTimer; Happens (Expire 0); Happens Stop]
                  eq_refl)).
Defined.

(** The armed timer of a collector in automatic mode is traded for
    another. *)
Lemma setupFlushTimer_trades_the_timer_witness :
  exists handle,
    MetricCollector._flushTimer
      (fst (MetricCollector._setupFlushTimer (Sample.automatic Sample.accepting)
              Sample.timer_armed)) = Some handle /\
    Some 0 <> Some handle.
Proof.
  destruct (setupFlushTimer_trades_the_timer
              (Sample.automatic Sample.accepting) Sample.timer_armed
              ltac:(intros h [= <-]; repeat constructor))
    as (handle & Hnew & Hdiff & _).
  exists handle. split; [exact Hnew | exact Hdiff].
Defined.

Lemma two_records_are_well_kept : well_kept Scene.two_records.
Proof.
  repeat split; cbn.
  - repeat constructor; cbn; intuition discriminate.
  - repeat constructor.
  - repeat constructor; discriminate.
Qed.

(** Two records of three samples, flushed. *)
Lemma flush_accounts_for_every_sample_witness :
  exists sent,
    snd (MetricCollector.flush Scene.two_records Sample.nothing_yet) Sample.nothing_yet
    = (after_sending console sent Sample.nothing_yet, Resolved) /\
    list_sum (map samples_sent sent) = 3.
Proof.
  destruct (flush_accounts_for_every_sample Scene.two_records
              Sample.nothing_yet Sample.nothing_yet
              two_records_are_well_kept (fun _ _ => eq_refl))
    as (sent & Hrun & Hsum & _).
  exists sent. split; [exact Hrun | exact Hsum].
Defined.

(** The metric [n] with the dimension values x, y and the metric [n:x]
    with the dimension value y. *)
Lemma key_does_not_mark_where_the_name_ends_witness :
  MetricCollector.getMetrics
    (fst (MetricCollector.addMetrics (Sample.manual Sample.accepting)
            (Some (JS.Many [Scene.named_n; Scene.named_n_x]))))
  = [assign_value Scene.named_n [1%Z; 2%Z]].
Proof.
  refine (proj2 (key_does_not_mark_where_the_name_ends
                   (Sample.manual Sample.accepting) Scene.named_n Scene.named_n_x
                   "a" "x" [("b", "y")] eq_refl eq_refl eq_refl _ _ _)).
  - discriminate.
  - cbn. intuition discriminate.
  - reflexivity.
Defined.

(** The timer of a collector in automatic mode runs out. *)
Lemma expired_timer_flushes_and_rearms_witness :
  exists this' w',
    expire 0 (Sample.automatic Sample.accepting) Sample.timer_armed
    = Some (this', w', BPromise_resolve) /\
    timers w' = [mkTimer 1 20000].
Proof.
  destruct (proj1 (expired_timer_flushes_and_rearms
                     (Sample.automatic Sample.accepting) Sample.timer_armed 0
                     (conj (fun h (Hh : Some 0 = Some h) =>
                              match Hh in _ = x return
                                    match x with Some h' => h' < 1 | None => True end
                              with eq_refl => le_n 1 end)
                           (ex_intro _ 0 (conj eq_refl eq_refl)))
                     eq_refl eq_refl))
    as (this' & w' & Hrun & _ & _ & _ & Ht & _).
  exists this', w'. split; [exact Hrun | exact Ht].
Defined.

(** A metric with the timestamp 0 and its unit under [units]: neither
    reaches the wire. *)
Lemma units_never_reach_the_wire_witness :
  match CloudWatchDriver.wireEntry
          (mkMetric "latency" None (Scalar 3%Z) None (Some "Milliseconds")
                    (Some (Number 0)))
  with
  | JS.Normal e => MetricDatum.Timestamp e = None /\ MetricDatum.Unit e = None
  | JS.Throw _ => True
  end.
Proof.
  exact (proj2 (proj2 (units_never_reach_the_wire
                         (mkMetric "latency" None (Scalar 3%Z) None
                                   (Some "Milliseconds") (Some (Number 0)))
                         None))).
Defined.

(** Against C9 as the specification words it, with the chunks counted in
    the order of the cutting: of the three chunks of 41 records (0 .. 19,
    20 .. 39 and 40) the transport rejects the submission of the second
    one, which is the third call; the third chunk, the one after it, has
    been submitted by then. *)
Lemma later_chunk_is_sent_before_the_failing_one :
  snd (CloudWatchDriver.sendMetrics (Sample.driver (Sample.rejecting_call 2))
         (JS.Many (Sample.numbered 41)) Sample.nothing_yet)
  = Rejected (Failed (mkError "Throttling" true)) /\
  puts (fst (CloudWatchDriver.sendMetrics (Sample.driver (Sample.rejecting_call 2))
               (JS.Many (Sample.numbered 41)) Sample.nothing_yet))
  = map (batch_of (Sample.driver (Sample.rejecting_call 2)))
        [nth 0 (chunk (Sample.numbered_entries 41) 20) [];
         nth 2 (chunk (Sample.numbered_entries 41) 20) [];
         nth 1 (chunk (Sample.numbered_entries 41) 20) []] /\
  Sample.rejecting_call 2
    (map (batch_of (Sample.driver (Sample.rejecting_call 2)))
         [nth 0 (chunk (Sample.numbered_entries 41) 20) [];
          nth 2 (chunk (Sample.numbered_entries 41) 20) []])
    (batch_of (Sample.driver (Sample.rejecting_call 2))
              (nth 1 (chunk (Sample.numbered_entries 41) 20) []))
  = Some (mkError "Throttling" false) /\
  map MetricDatum.Value (nth 2 (chunk (Sample.numbered_entries 41) 20) [])
  = [Some 40%Z].
Proof. repeat split; vm_compute; reflexivity. Qed.
